(** * wifi-reconnctor.py: the reconnector script

    A shallow embedding of the reconnector script (Python 2): first the
    decision procedure [find_better_wifi] and the module-level flags it
    reads, then the functions around it (the parsers of the output of
    [iwlist] and [iwconfig], the lock file, the numeric options, [main]),
    followed by the properties of the selection that the specification
    states and by properties of the other functions.

    Conventions of the embedding:
    - a Python [float] is taken as the rational it denotes; the selection
      only compares qualities against the lower bound, and the one
      arithmetic expression ([upgrade_wifi_quality - fudge]) is only ever
      compared against a string;
    - the scan dictionary is a [gmap string wlan], [None] where the source
      has [None];
    - an exception leaving the function is a [Raise]; [sys.exit] is the
      exception [SystemExit], as in Python;
    - the operating system (files, environment, the commands run) is a
      parameter of the functions that call it, and what a run prints and
      which commands it starts is kept in a trace. *)

From Stdlib Require Import QArith Ascii.
From stdpp Require Import gmap strings list pretty.

Local Open Scope string_scope.

(** ** Python values and exceptions *)

Module Py.

(** The values that meet in the comparisons of the selection. *)
Inductive value :=
| Str (s : string)
| Float (x : Q).

Definition Qlt_bool (x y : Q) : bool := negb (Qle_bool y x).

(** [a < b] of CPython 2: two numbers compare numerically, two strings
    lexicographically, and between a number and a string the number is
    always the smaller one. *)
Definition lt (a b : value) : bool :=
  match a, b with
  | Float x, Float y => Qlt_bool x y
  | Str s, Str t => String.ltb s t
  | Float _, Str _ => true
  | Str _, Float _ => false
  end.

Inductive exn :=
| SystemExit (code : Z) (stderr : string)
| TypeError (msg : string)
| UnboundLocalError (var : string)
| KeyError (key : string)
| OverflowError (msg : string).

Inductive result (A : Type) :=
| Return (a : A)
| Raise (e : exn).
Arguments Return {A} a.
Arguments Raise {A} e.

#[export] Instance result_ret : MRet result := fun A a => Return a.

#[export] Instance result_bind : MBind result := fun A B k r =>
  match r with
  | Return a => k a
  | Raise e => Raise e
  end.

(** [for x in l: body], threading the local variables through. *)
Fixpoint for_each {S X} (body : S -> X -> result S) (l : list X) (s : S)
  : result S :=
  match l with
  | [] => Return s
  | x :: l' => s' ← body s x; for_each body l' s'
  end.

(** [str(x)] of a value that is a string or [None]. *)
Definition str (x : option string) : string :=
  match x with
  | Some s => s
  | None => "None"
  end.

(** [x in l] for a list of strings [l]. *)
Definition elem (x : option string) (l : list string) : bool :=
  match x with
  | Some s => bool_decide (s ∈ l)
  | None => false
  end.

End Py.

Import Py.

(** ** The data of the script *)

(** One entry of the dictionary returned by [match_iwlist_v30_output]. *)
Record wlan := {
  essid : string;
  cell : Z;
  channel : Z;
  quality : Q;
  signal_level : string;
  address : string;
  frequency : Q
}.

(** The module-level flags read by the selection, and the one
    ([signal_quality_threshold]) that the command line sets beside them. *)
Record globals := {
  non_preferred_wlans : list string;
  preferred_wlans : list string;
  signal_quality_delta_threshold : Q;
  signal_quality_lower_bound : Q;
  signal_quality_threshold : Q
}.

(** The values the module starts with. *)
Definition initial_globals : globals := {|
  non_preferred_wlans := [];
  preferred_wlans := [];
  signal_quality_delta_threshold := 15 # 100;
  signal_quality_lower_bound := 5 # 10;
  signal_quality_threshold := 5 # 10
|}.


Definition set_signal_quality_threshold (v : Q) (G : globals) : globals := {|
  non_preferred_wlans := non_preferred_wlans G;
  preferred_wlans := preferred_wlans G;
  signal_quality_delta_threshold := signal_quality_delta_threshold G;
  signal_quality_lower_bound := signal_quality_lower_bound G;
  signal_quality_threshold := v
|}.

(** [bail_with_message(text)]: writes [ERROR: text] to the standard error
    and leaves through [sys.exit(-1)]. *)
Definition bail_with_message {A} (text : string) : result A :=
  Raise (SystemExit (-1) ("ERROR: " ++ text)).

(** The first integer that is too large for a float: from here on the
    nearest double is not finite, and the conversion of the integer
    raises [OverflowError]. *)
Definition float_limit : Z := 2 ^ 1024 - 2 ^ 970.

(** [n / 100.] for an integer [n]: the integer is converted to a float
    before the division. *)
Definition hundredth (n : Z) : result Q :=
  if (float_limit <=? Z.abs n)%Z then
    Raise (OverflowError "long int too large to convert to float")
  else Return (inject_Z n / 100)%Q.

(** The branch of [parse_commandline_args] for the option
    [--signal_quality_threshold], on the integer [int(value)]. *)
Definition parse_signal_quality_threshold (value : Z) (G : globals)
  : result globals :=
  t ← hundredth value;
  if Qlt_bool t (1 # 10) || Qlt_bool 1 t then
    bail_with_message "--signal_quality_threshold should be in 1-100 range"
  else Return (set_signal_quality_threshold t G).

(** ** find_better_wifi *)

(** The local variables that the two loops assign. [fudge] is unbound
    until its first assignment. *)
Record locals := {
  sufficiently_better : string;
  better_quality : Q;
  fudge : option Q
}.

Section Selection.

Variable G : globals.
Variable scanned_wifi_set : gmap string wlan.
Variable active_wifi : string.
Variable active_is_preferred : bool.
Variable allow_downgrade : bool.

(** The comparison [sufficiently_better < upgrade_wifi_quality - fudge]
    and the assignments it guards. *)
Definition switch_if_better (L : locals) (wifi : string)
    (upgrade_wifi_quality : Q) (fudge' : Q) : locals :=
  if lt (Str (sufficiently_better L))
        (Float (upgrade_wifi_quality - fudge'))
  then {| sufficiently_better := wifi;
          better_quality := upgrade_wifi_quality;
          fudge := Some fudge' |}
  else {| sufficiently_better := sufficiently_better L;
          better_quality := better_quality L;
          fudge := Some fudge' |}.

(** Body of [for wifi in preferred_wlans]. *)
Definition preferred_body (L : locals) (wifi : string) : result locals :=
  match scanned_wifi_set !! wifi with
  | None => Return L
  | Some r =>
    let upgrade_wifi_quality := quality r in
    if Qlt_bool upgrade_wifi_quality (signal_quality_lower_bound G) then
      Return L
    else if negb active_is_preferred then
      Return {| sufficiently_better := wifi;
                better_quality := upgrade_wifi_quality;
                fudge := fudge L |}
    else
      let fudge' :=
        if String.eqb (sufficiently_better L) active_wifi then
          if negb allow_downgrade
          then Some (signal_quality_delta_threshold G)
          else fudge L
        else Some 0%Q in
      match fudge' with
      | None => Raise (UnboundLocalError "fudge")
      | Some f => Return (switch_if_better L wifi upgrade_wifi_quality f)
      end
  end.

(** Body of [for wifi in non_preferred_wlans]. *)
Definition non_preferred_body (L : locals) (wifi : string) : result locals :=
  match scanned_wifi_set !! wifi with
  | None => Raise (KeyError wifi)
  | Some r =>
    let upgrade_wifi_quality := quality r in
    if Qlt_bool upgrade_wifi_quality (signal_quality_lower_bound G) then
      Return L
    else
      let f :=
        if String.eqb (sufficiently_better L) active_wifi
        then signal_quality_delta_threshold G
        else 0%Q in
      Return (switch_if_better L wifi upgrade_wifi_quality f)
  end.

End Selection.

Definition find_better_wifi (G : globals) (active_wifi : option string)
    (scanned_wifi_set : option (gmap string wlan)) : result (option string) :=
  match scanned_wifi_set with
  | None => Return active_wifi
  | Some scanned =>
    if bool_decide (size scanned = 0) then Return active_wifi else
    let active_is_preferred := elem active_wifi (preferred_wlans G) in
    if elem active_wifi (non_preferred_wlans G) && active_is_preferred then
      bail_with_message
        (str active_wifi ++ " cannot be both preferred and non-preferred")
    else
    match active_wifi with
    | None => bail_with_message "couln't find active wifi"
    | Some active =>
      if String.eqb active "" then
        bail_with_message "couln't find active wifi"
      else
      match scanned !! active with
      | None =>
        Raise (TypeError
                 "bail_with_message() takes exactly 1 argument (2 given)")
      | Some r =>
        let allow_downgrade :=
          Qlt_bool (quality r) (signal_quality_lower_bound G) in
        let L0 := {| sufficiently_better := active;
                     better_quality := quality r;
                     fudge := None |} in
        let sufficiently_better_is_preferred := active_is_preferred in
        L1 ← for_each
               (preferred_body G scanned active active_is_preferred
                               allow_downgrade)
               (preferred_wlans G) L0;
        if sufficiently_better_is_preferred
           && Qlt_bool (signal_quality_lower_bound G) (better_quality L1)
        then Return (Some (sufficiently_better L1))
        else
          L2 ← for_each (non_preferred_body G scanned active)
                 (non_preferred_wlans G) L1;
          Return (Some (sufficiently_better L2))
      end
    end
  end.

(** ** The scenarios of the specification, as inputs *)

Definition scan_record (name : string) (q : Q) : wlan := {|
  essid := name; cell := 1; channel := 1; quality := q;
  signal_level := "50"; address := "00:11:22:33:44:55"; frequency := 2437 # 1000
|}.

Definition scan_of (l : list (string * Q)) : gmap string wlan :=
  list_to_map (map (fun p => (fst p, scan_record (fst p) (snd p))) l).

Definition with_lists (P N : list string) : globals := {|
  non_preferred_wlans := N;
  preferred_wlans := P;
  signal_quality_delta_threshold := signal_quality_delta_threshold initial_globals;
  signal_quality_lower_bound := signal_quality_lower_bound initial_globals;
  signal_quality_threshold := signal_quality_threshold initial_globals
|}.

Definition scenario_5_globals : globals := with_lists ["secA"] ["open1"].

Definition scenario_5_scan : gmap string wlan :=
  scan_of [("secA", 6 # 10); ("open1", 9 # 10)].

(** ** Vocabulary of the properties *)

(** A candidate that the loops do not skip: scanned, and not below the
    lower bound. *)
Definition in_range (G : globals) (scanned : gmap string wlan) (w : string)
  : Prop :=
  exists r, scanned !! w = Some r /\
            (signal_quality_lower_bound G <= quality r)%Q.

(** A failure through [bail_with_message]: the configuration error of
    the specification. *)
Definition fails_with_configuration_error {A} (r : result A) : Prop :=
  exists text, r = Raise (SystemExit (-1) text).

(** A decision that moves away from the active identifier. *)
Definition switches (a : option string) (r : result (option string)) : Prop :=
  exists d, r = Return d /\ d <> a.



(** Two settings of the flags that differ at most in the margin and in
    [signal_quality_threshold]. *)
Definition same_lists_and_bound (G1 G2 : globals) : Prop :=
  preferred_wlans G1 = preferred_wlans G2 /\
  non_preferred_wlans G1 = non_preferred_wlans G2 /\
  signal_quality_lower_bound G1 = signal_quality_lower_bound G2.

(** ** The rest of the script *)

(** The exceptions that leave the other functions of the script: those of
    the selection, and three more. *)
Inductive error :=
| Exn (e : exn)
| ValueError (msg : string)
| ZeroDivisionError (msg : string)
| IndexError (msg : string).

Inductive outcome (A : Type) :=
| Done (a : A)
| Raised (e : error).
Arguments Done {A} a.
Arguments Raised {A} e.

#[export] Instance outcome_ret : MRet outcome := fun A a => Done a.

#[export] Instance outcome_bind : MBind outcome := fun A B k r =>
  match r with
  | Done a => k a
  | Raised e => Raised e
  end.

(** A call of a function of the selection from the rest of the script. *)
Definition of_result {A} (r : result A) : outcome A :=
  match r with
  | Return a => Done a
  | Raise e => Raised (Exn e)
  end.

(** *** get_path_full_or_relative_to_home *)

(** [HOME] is [os.getenv('HOME')]. *)
Definition get_path_full_or_relative_to_home (HOME : option string)
    (filename : option string) : outcome (option string) :=
  match filename with
  | None => Done None
  | Some f =>
    match f with
    | EmptyString => Raised (IndexError "string index out of range")
    | String c _ =>
      if Ascii.eqb c "/"%char then Done (Some f)
      else
        match HOME with
        | None => Done None
        | Some home => Done (Some (home ++ "/" ++ f))
        end
    end
  end.

(** *** The numeric options of parse_commandline_args *)


(** *** Regular expressions *)

Module Re.

(** The fragment of the [re] module that the patterns of the script use:
    a sequence of literals and of single-character classes, the latter
    once, under a greedy star or plus, or as a capturing group [(c+)]. *)
Inductive item :=
| Lit (s : string)
| One (c : ascii -> bool)
| Star (c : ascii -> bool)
| Plus (c : ascii -> bool)
| Group (c : ascii -> bool).

Definition code (c : ascii) : N := N_of_ascii c.

(** [\s]: space, tab, newline, vertical tab, form feed, carriage return. *)
Definition space (c : ascii) : bool :=
  (code c =? 32)%N || ((9 <=? code c)%N && (code c <=? 13)%N).

(** [\d] *)
Definition digit (c : ascii) : bool :=
  (48 <=? code c)%N && (code c <=? 57)%N.

(** [.]: any character but the newline. *)
Definition dot (c : ascii) : bool := negb (code c =? 10)%N.

(** The double quote. *)
Definition dquote : ascii := ascii_of_N 34.

(** The class of every character but the double quote. *)
Definition not_dquote (c : ascii) : bool := negb (Ascii.eqb c dquote).

(** [[0-9ABCDEF:]] *)
Definition hex_or_colon (c : ascii) : bool :=
  digit c || ((65 <=? code c)%N && (code c <=? 70)%N) || (code c =? 58)%N.

(** [[\d\.]] *)
Definition digit_or_point (c : ascii) : bool :=
  digit c || (code c =? 46)%N.

(** [s] without the prefix [t], if it starts with it. *)
Fixpoint strip_prefix (t s : string) : option string :=
  match t, s with
  | EmptyString, _ => Some s
  | String a t', String b s' =>
    if Ascii.eqb a b then strip_prefix t' s' else None
  | String _ _, EmptyString => None
  end.

(** [c*] followed by [k]: the longest run first, then shorter ones. *)
Fixpoint greedy {R} (c : ascii -> bool) (k : string -> option R) (s : string)
  : option R :=
  match s with
  | String a s' =>
    if c a then
      match greedy c k s' with
      | Some r => Some r
      | None => k s
      end
    else k s
  | EmptyString => k s
  end.

(** The same, handing the text matched so far to [k]. *)
Fixpoint greedy_group {R} (c : ascii -> bool)
    (k : string -> string -> option R) (g : string) (s : string) : option R :=
  match s with
  | String a s' =>
    if c a then
      match greedy_group c k (g ++ String a "") s' with
      | Some r => Some r
      | None => k g s
      end
    else k g s
  | EmptyString => k g s
  end.

(** [re.match]: the groups of the first way the pattern matches a prefix
    of [s], in the order in which a backtracking matcher tries them. *)
Fixpoint matches (p : list item) (groups : list string) (s : string)
  : option (list string) :=
  match p with
  | [] => Some groups
  | Lit t :: p' =>
    match strip_prefix t s with
    | Some s' => matches p' groups s'
    | None => None
    end
  | One c :: p' =>
    match s with
    | String a s' => if c a then matches p' groups s' else None
    | EmptyString => None
    end
  | Star c :: p' => greedy c (matches p' groups) s
  | Plus c :: p' =>
    match s with
    | String a s' => if c a then greedy c (matches p' groups) s' else None
    | EmptyString => None
    end
  | Group c :: p' =>
    match s with
    | String a s' =>
      if c a then
        greedy_group c (fun g rest => matches p' (groups ++ [g]) rest)
                     (String a "") s'
      else None
    | EmptyString => None
    end
  end.

Definition match_ (p : list item) (s : string) : option (list string) :=
  matches p [] s.

(** [m.group(n)], for [n] from 1. *)
Definition group (m : list string) (n : nat) : string :=
  nth (pred n) m "".

End Re.

(** [s.split('\n')] *)
Fixpoint split_lines_from (line : string) (s : string) : list string :=
  match s with
  | EmptyString => [line]
  | String a s' =>
    if (Re.code a =? 10)%N then line :: split_lines_from "" s'
    else split_lines_from (line ++ String a "") s'
  end.

Definition split_lines (s : string) : list string := split_lines_from "" s.

(** [int(s)] for a string of digits. *)
Fixpoint int_from (n : Z) (s : string) : Z :=
  match s with
  | EmptyString => n
  | String a s' => int_from (10 * n + (Z.of_N (Re.code a) - 48)) s'
  end.

Definition int_of_digits (s : string) : Z := int_from 0 s.

(** The patterns. *)
Definition quoted (s : string) : string := s ++ String Re.dquote "".

(** [.+\s+ESSID:Q([^Q]+)Q], writing Q for the double quote. *)
Definition iwconfig_essid_pattern : list Re.item :=
  [Re.Plus Re.dot; Re.Plus Re.space; Re.Lit (quoted "ESSID:");
   Re.Group Re.not_dquote; Re.Lit (quoted "")].

(** ['\s*Cell\s(\d+)\s.+Address: ([0-9ABCDEF:]+)'] *)
Definition cell_header_pattern : list Re.item :=
  [Re.Star Re.space; Re.Lit "Cell"; Re.One Re.space; Re.Group Re.digit;
   Re.One Re.space; Re.Plus Re.dot; Re.Lit "Address: ";
   Re.Group Re.hex_or_colon].

(** ['\s*Channel:(\d+)'] *)
Definition channel_pattern : list Re.item :=
  [Re.Star Re.space; Re.Lit "Channel:"; Re.Group Re.digit].

(** ['\s*Frequency: ([\d\.]+)\s*GHz'] *)
Definition freq_pattern : list Re.item :=
  [Re.Star Re.space; Re.Lit "Frequency: "; Re.Group Re.digit_or_point;
   Re.Star Re.space; Re.Lit "GHz"].

(** ['\s*Quality=(\d+)/(\d+)\s+Signal level=-(\d+) dBm'] *)
Definition quality_and_siqnal_pattern : list Re.item :=
  [Re.Star Re.space; Re.Lit "Quality="; Re.Group Re.digit; Re.Lit "/";
   Re.Group Re.digit; Re.Plus Re.space; Re.Lit "Signal level=-";
   Re.Group Re.digit; Re.Lit " dBm"].

(** [\s*ESSID:Q([^Q]+)Q], writing Q for the double quote. *)
Definition essid_pattern : list Re.item :=
  [Re.Star Re.space; Re.Lit (quoted "ESSID:"); Re.Group Re.not_dquote;
   Re.Lit (quoted "")].

(** [float(s)] for a string of digits and points, as [[\d\.]+] matches
    them: at most one point and at least one digit, or [ValueError]. *)
Fixpoint all_digits (s : string) : bool :=
  match s with
  | EmptyString => true
  | String a s' => Re.digit a && all_digits s'
  end.

(** The text before the first point, and the text after it if there is
    a point. *)
Fixpoint split_point (s : string) : string * option string :=
  match s with
  | EmptyString => ("", None)
  | String a s' =>
    if (Re.code a =? 46)%N then ("", Some s')
    else let '(i, f) := split_point s' in (String a i, f)
  end.

Definition float_of_digits_and_points (s : string) : outcome Q :=
  let '(i, f) := split_point s in
  match f with
  | None =>
    if all_digits i && negb (String.eqb i "")
    then Done (inject_Z (int_of_digits i))
    else Raised (ValueError s)
  | Some f =>
    if all_digits i && all_digits f
       && negb (String.eqb i "" && String.eqb f "")
    then Done (inject_Z (int_of_digits i)
               + inject_Z (int_of_digits f)
                 / inject_Z (10 ^ Z.of_nat (String.length f)))%Q
    else Raised (ValueError s)
  end.

(** *** match_iwconfig_v30_essid *)

Fixpoint match_iwconfig_v30_essid (output : list string) : option string :=
  match output with
  | [] => None
  | line :: output' =>
    match Re.match_ iwconfig_essid_pattern line with
    | Some m => Some (Re.group m 1)
    | None => match_iwconfig_v30_essid output'
    end
  end.

(** *** match_iwlist_v30_output *)

(** The local variables of the loop that describe the cell being read,
    and the dictionary built so far. The texts matched by [(\d+)] in the
    quality line are kept as the integers they spell, which is what
    [float] makes of them when the cell is entered; the default signal
    level, the integer 100, is kept as its text. Before the first cell
    header only [cell] is bound, and the others are not read. *)
Record cell_vars := {
  v_cell : Z;
  v_channel : Z;
  v_quality_num : Z;
  v_quality_denom : Z;
  v_signal_level : string;
  v_essid : string;
  v_address : string;
  v_frequency : Q;
  parsed_set : gmap string wlan
}.

Definition no_cell : cell_vars := {|
  v_cell := -1; v_channel := -1; v_quality_num := 0; v_quality_denom := 1;
  v_signal_level := "100"; v_essid := ""; v_address := ""; v_frequency := 0;
  parsed_set := ∅
|}.

(** [if cell >= 0: parsed_set[essid] = {...}]. The quality is the
    quotient of the two integers, taken exactly. The floats of the source
    round it; an integer of more than 308 digits is [inf] as a float, and
    the quotient of the source is then [inf], [nan] or zero, where the
    record holds the exact quotient all the same. None of the properties
    of the scan below depends on the value of the quality. *)
Definition enter_cell (S : cell_vars) : outcome (gmap string wlan) :=
  if (0 <=? v_cell S)%Z then
    if (v_quality_denom S =? 0)%Z then
      Raised (ZeroDivisionError "float division by zero")
    else
      Done (<[v_essid S :=
               {| essid := v_essid S;
                  cell := v_cell S;
                  channel := v_channel S;
                  quality := (inject_Z (v_quality_num S)
                              / inject_Z (v_quality_denom S))%Q;
                  signal_level := v_signal_level S;
                  address := v_address S;
                  frequency := v_frequency S |}]> (parsed_set S))
  else Done (parsed_set S).

(** Body of [for line in output]. *)
Definition iwlist_line (S : cell_vars) (line : string) : outcome cell_vars :=
  match Re.match_ cell_header_pattern line with
  | Some m =>
    d ← enter_cell S;
    Done {| v_cell := int_of_digits (Re.group m 1);
            v_channel := -1; v_quality_num := 0; v_quality_denom := 1;
            v_signal_level := "100"; v_essid := "";
            v_address := Re.group m 2; v_frequency := 0;
            parsed_set := d |}
  | None =>
  match Re.match_ channel_pattern line with
  | Some m =>
    Done {| v_cell := v_cell S;
            v_channel := int_of_digits (Re.group m 1);
            v_quality_num := v_quality_num S;
            v_quality_denom := v_quality_denom S;
            v_signal_level := v_signal_level S; v_essid := v_essid S;
            v_address := v_address S; v_frequency := v_frequency S;
            parsed_set := parsed_set S |}
  | None =>
  match Re.match_ freq_pattern line with
  | Some m =>
    f ← float_of_digits_and_points (Re.group m 1);
    Done {| v_cell := v_cell S; v_channel := v_channel S;
            v_quality_num := v_quality_num S;
            v_quality_denom := v_quality_denom S;
            v_signal_level := v_signal_level S; v_essid := v_essid S;
            v_address := v_address S; v_frequency := f;
            parsed_set := parsed_set S |}
  | None =>
  match Re.match_ quality_and_siqnal_pattern line with
  | Some m =>
    Done {| v_cell := v_cell S; v_channel := v_channel S;
            v_quality_num := int_of_digits (Re.group m 1);
            v_quality_denom := int_of_digits (Re.group m 2);
            v_signal_level := Re.group m 3; v_essid := v_essid S;
            v_address := v_address S; v_frequency := v_frequency S;
            parsed_set := parsed_set S |}
  | None =>
  match Re.match_ essid_pattern line with
  | Some m =>
    Done {| v_cell := v_cell S; v_channel := v_channel S;
            v_quality_num := v_quality_num S;
            v_quality_denom := v_quality_denom S;
            v_signal_level := v_signal_level S;
            v_essid := Re.group m 1;
            v_address := v_address S; v_frequency := v_frequency S;
            parsed_set := parsed_set S |}
  | None => Done S
  end end end end end.

Fixpoint for_each_line {S} (body : S -> string -> outcome S)
    (output : list string) (s : S) : outcome S :=
  match output with
  | [] => Done s
  | line :: output' => s' ← body s line; for_each_line body output' s'
  end.

Definition match_iwlist_v30_output (output : list string)
  : outcome (gmap string wlan) :=
  S ← for_each_line iwlist_line output no_cell;
  enter_cell S.

(** *** The script and its environment *)

(** The other module-level flags. *)
Record flags := {
  dry_run : bool;
  interface : string;
  lock : bool;
  lockfile : option string;
  unlock : bool
}.

Definition IWLIST : string := "/sbin/iwlist".
Definition SCANNING_COMMAND : string := "scanning".
Definition IWCONFIG : string := "/sbin/iwconfig".
Definition NMCLI : string := "/usr/bin/nmcli".

Definition newline : string := String (ascii_of_N 10) "".

(** What a run does to the outside, in order: a line printed by
    [print_with_timestamp] (the text after the timestamp), a text
    written to the standard error, a command handed to
    [subprocess.Popen]. *)
Inductive event :=
| Printed (text : string)
| Stderr (text : string)
| Popen (command : list string).

(** The operating system as the script calls it, over a type [FS] of
    file system states.
    - [remove]: [os.remove]; [None] is [OSError].
    - [write_file]: [open(filename, "w")], [write] and [close]; the
      second component is the [errno] and [strerror] of an [IOError].
    - [communicate]: [subprocess.Popen] and [communicate] on a command,
      giving the two outputs; [None] is [OSError]. *)
Record os (FS : Type) := {
  HOME : option string;
  isfile : FS -> string -> bool;
  remove : FS -> string -> option FS;
  write_file : FS -> string -> string -> FS * option (Z * string);
  communicate : list string -> option (string * string)
}.
Arguments HOME {FS} _.
Arguments isfile {FS} _ _ _.
Arguments remove {FS} _ _ _.
Arguments write_file {FS} _ _ _ _.
Arguments communicate {FS} _ _.

Record world (FS : Type) := {
  files : FS;
  trace : list event
}.
Arguments files {FS} _.
Arguments trace {FS} _.

(** A function of the script: from the world before to the world after
    and what the function returns or raises. *)
Definition script (FS A : Type) : Type := world FS -> world FS * outcome A.

#[export] Instance script_ret {FS} : MRet (script FS) :=
  fun A a W => (W, Done a).

#[export] Instance script_bind {FS} : MBind (script FS) :=
  fun A B k m W =>
    match m W with
    | (W', Done a) => k a W'
    | (W', Raised e) => (W', Raised e)
    end.

Definition pure {FS A} (r : outcome A) : script FS A := fun W => (W, r).

Definition emit {FS} (e : event) : script FS unit :=
  fun W => ({| files := files W; trace := trace W ++ [e] |}, Done tt).

Section Script.

Context {FS : Type} (O : os FS).

Definition print_with_timestamp (text : string) : script FS unit :=
  emit (Printed text).

Definition is_locked (filename : option string) : script FS bool :=
  fun W =>
    match filename with
    | None => (W, Done false)
    | Some f => (W, Done (isfile O (files W) f))
    end.

Definition do_unlock (filename : option string) : script FS unit :=
  match filename with
  | None =>
    pure (Raised (Exn (TypeError
      "coercing to Unicode: need string or buffer, NoneType found")))
  | Some f =>
    fun W =>
      match remove O (files W) f with
      | Some fs' => ({| files := fs'; trace := trace W |}, Done tt)
      | None => (W, Done tt)
      end
  end.

Definition do_lock (filename : option string) : script FS bool :=
  match filename with
  | None =>
    pure (Raised (Exn (TypeError
      "coercing to Unicode: need string or buffer, NoneType found")))
  | Some f =>
    fun W =>
      let '(fs', err) := write_file O (files W) f ("locked" ++ newline) in
      let W' := {| files := fs'; trace := trace W |} in
      match err with
      | None =>
        (_ ← print_with_timestamp ("Locked via file: " ++ f); mret true) W'
      | Some (errno, strerror) =>
        (W', of_result (bail_with_message
               ("I/O error(" ++ pretty errno ++ "): " ++ strerror)))
      end
  end.

Definition run_command_or_die (command : list string)
  : script FS (string * string) :=
  _ ← emit (Popen command);
  match communicate O command with
  | Some (outs, errs) =>
    _ ← (if String.eqb errs "" then mret tt
         else emit (Stderr ("Errors while executing " ++ hd "" command
                            ++ ":" ++ newline ++ errs ++ newline)));
    mret (outs, errs)
  | None =>
    pure (of_result (bail_with_message
            ("Failed to find or execute " ++ hd "" command ++ ".")))
  end.

Variable F : flags.

Definition scan_wifi (wlans : list string)
  : script FS (option (gmap string wlan)) :=
  match wlans with
  | [] => mret None
  | wlan :: _ =>
    '(outs, errs) ← run_command_or_die
                      [IWLIST; interface F; SCANNING_COMMAND; "essid"; wlan];
    d ← pure (match_iwlist_v30_output (split_lines outs));
    mret (Some d)
  end.

Definition get_active_wlan : script FS (option string) :=
  '(outs, errs) ← run_command_or_die [IWCONFIG; interface F];
  mret (match_iwconfig_v30_essid (split_lines outs)).

Definition activate_wifi (wifi : option string) : script FS unit :=
  match wifi with
  | Some w =>
    _ ← run_command_or_die [NMCLI; "c"; "up"; "id"; w]; mret tt
  | None =>
    _ ← emit (Popen [NMCLI; "c"; "up"; "id"]);
    pure (Raised (Exn (TypeError "execv() arg 2 must contain only strings")))
  end.

Definition process_prescan_commands : script FS bool :=
  if lock F && unlock F then
    pure (of_result (bail_with_message
      ("Cannot do both --lock and --unlock at the same time" ++ newline)))
  else if (lock F || unlock F) && bool_decide (lockfile F = None) then
    pure (of_result (bail_with_message
      "--lock and --unlock require a lockfile"))
  else
    fullpath ← pure (get_path_full_or_relative_to_home (HOME O) (lockfile F));
    _ ← (if lock F then
           if negb (dry_run F) then _ ← do_lock fullpath; mret tt
           else print_with_timestamp ("do_lock(" ++ str fullpath ++ ")")
         else mret tt);
    _ ← (if unlock F then
           if negb (dry_run F) then do_unlock fullpath
           else print_with_timestamp ("do_unlock(" ++ str fullpath ++ ")")
         else mret tt);
    locked ← is_locked fullpath;
    if locked : bool then
      _ ← print_with_timestamp ("Reconnect is locked via " ++ str fullpath);
      (mret true : script FS bool)
    else mret false.

(** [main], from the flags as [parse_commandline_args] left them. *)
Definition main (G : globals) : script FS unit :=
  locked ← process_prescan_commands;
  if locked : bool then (mret tt : script FS unit) else
  scanned_wifi ← scan_wifi (preferred_wlans G);
  active_wifi ← get_active_wlan;
  better_wifi ← pure (of_result (find_better_wifi G active_wifi scanned_wifi));
  if negb (bool_decide (better_wifi = active_wifi)) then
    if negb (dry_run F) then
      _ ← print_with_timestamp
            ("Switching active wifi " ++ str active_wifi ++ " -> "
             ++ str better_wifi ++ " ");
      activate_wifi better_wifi
    else print_with_timestamp ("activate_wifi(" ++ str better_wifi ++ ")")
  else print_with_timestamp ("Staying on " ++ str active_wifi).

End Script.

(** Every character of [s] is in the class [c]. *)
Fixpoint all_in (c : ascii -> bool) (s : string) : bool :=
  match s with
  | EmptyString => true
  | String a s' => c a && all_in c s'
  end.

(** [parses p u groups]: the pattern [p] matches exactly the text [u],
    its groups matching the texts [groups]. *)
Inductive parses : list Re.item -> string -> list string -> Prop :=
| parses_nil : parses [] "" []
| parses_Lit t p u gs :
    parses p u gs -> parses (Re.Lit t :: p) (t ++ u) gs
| parses_One c p a u gs :
    c a = true -> parses p u gs -> parses (Re.One c :: p) (String a u) gs
| parses_Star c p x u gs :
    all_in c x = true -> parses p u gs -> parses (Re.Star c :: p) (x ++ u) gs
| parses_Plus c p a x u gs :
    c a = true -> all_in c x = true -> parses p u gs ->
    parses (Re.Plus c :: p) (String a (x ++ u)) gs
| parses_Group c p a x u gs :
    c a = true -> all_in c x = true -> parses p u gs ->
    parses (Re.Group c :: p) (String a (x ++ u)) (String a x :: gs).

(** An entry as the scan of a cell leaves it: the cell number is not
    negative, the address is a non-empty text of the characters 0-9, A-F
    and the colon, and the name holds no double quote. *)
Definition well_formed (r : wlan) : Prop :=
  (0 <= cell r)%Z /\
  address r <> "" /\ all_in Re.hex_or_colon (address r) = true /\
  all_in Re.not_dquote (essid r) = true.

(** The lines that open a cell. *)
Definition is_cell_header (line : string) : bool :=
  bool_decide (is_Some (Re.match_ cell_header_pattern line)).

Fixpoint count_cells (output : list string) : nat :=
  match output with
  | [] => 0
  | line :: output' =>
    (if is_cell_header line then 1 else 0) + count_cells output'
  end.

(** [emits P Q m]: whatever the world, [m] only adds events that satisfy
    [P] to the trace, and what it returns satisfies [Q]. *)
Definition emits {FS A} (P : event -> Prop) (Q : A -> Prop)
    (m : script FS A) : Prop :=
  forall W, exists evs,
    trace (m W).1 = (trace W ++ evs)%list /\ Forall P evs /\
    forall a, (m W).2 = Done a -> Q a.

(** [m] leaves the files as they are. *)
Definition keeps_files {FS A} (m : script FS A) : Prop :=
  forall W, files (m W).1 = files W.

(** The commands a run may hand to [subprocess.Popen]. *)
Definition allowed_command (F : flags) (G : globals) (command : list string)
  : Prop :=
  (exists w rest, preferred_wlans G = w :: rest /\
     command = [IWLIST; interface F; SCANNING_COMMAND; "essid"; w]) \/
  command = [IWCONFIG; interface F] \/
  (exists w, w ∈ preferred_wlans G /\ command = [NMCLI; "c"; "up"; "id"; w]).

(** The lock file is where the flags and HOME put it. *)
Definition lock_path {FS} (O : os FS) (F : flags) (p : option string) : Prop :=
  get_path_full_or_relative_to_home (HOME O) (lockfile F) = Done p.

(** *** A machine for the examples *)

(** What [iwlist] prints for two cells, and [iwconfig] for an interface
    associated with the second. *)
Definition example_iwlist_output : string :=
  "wlan0     Scan completed :" ++ newline ++
  "          Cell 01 - Address: 00:11:22:33:44:55" ++ newline ++
  "                    Channel:6" ++ newline ++
  "                    Frequency: 2.437 GHz (Channel 6)" ++ newline ++
  "                    Quality=58/70  Signal level=-52 dBm  " ++ newline ++
  "                    ESSID:" ++ quoted (quoted "" ++ "home") ++ newline ++
  "          Cell 02 - Address: 66:77:88:99:AA:BB" ++ newline ++
  "                    Channel:11" ++ newline ++
  "                    Quality=63/70  Signal level=-47 dBm  " ++ newline ++
  "                    ESSID:" ++ quoted (quoted "" ++ "guest") ++ newline.

Definition example_iwconfig_output : string :=
  "wlan0     IEEE 802.11abgn  ESSID:" ++ quoted (quoted "" ++ "guest")
  ++ "  " ++ newline ++
  "          Mode:Managed  Frequency:2.462 GHz" ++ newline.

(** Files are the set of their paths, every write and every command
    succeeds, and a file can be removed when it is there. *)
Definition example_os (home : option string) : os (gset string) := {|
  HOME := home;
  isfile fs p := bool_decide (p ∈ fs);
  remove fs p := if bool_decide (p ∈ fs) then Some (fs ∖ {[p]}) else None;
  write_file fs p text := ({[p]} ∪ fs, None);
  communicate command :=
    if String.eqb (hd "" command) IWLIST then Some (example_iwlist_output, "")
    else if String.eqb (hd "" command) IWCONFIG
         then Some (example_iwconfig_output, "")
         else Some ("", "")
|}.

Definition example_flags (dry lock_ unlock_ : bool) (file : option string)
  : flags := {|
  dry_run := dry; interface := "wlan0"; lock := lock_; lockfile := file;
  unlock := unlock_
|}.

Definition example_world (paths : list string) : world (gset string) := {|
  files := list_to_set paths; trace := []
|}.

(** The dictionary of a scan that returned, and the empty one otherwise. *)
Definition scan_result (r : outcome (gmap string wlan)) : gmap string wlan :=
  match r with
  | Done d => d
  | Raised _ => ∅
  end.

(** The variables after a cell header. *)
Definition new_cell (m : list string) (d : gmap string wlan) : cell_vars := {|
  v_cell := int_of_digits (Re.group m 1);
  v_channel := -1; v_quality_num := 0; v_quality_denom := 1;
  v_signal_level := "100"; v_essid := "";
  v_address := Re.group m 2; v_frequency := 0;
  parsed_set := d
|}.

Definition keyed_by_essid (d : gmap string wlan) : Prop :=
  forall k r, d !! k = Some r -> essid r = k.

(** After the lines read so far: no cell was opened, and the dictionary
    is empty, or a cell is open; and the dictionary has at most one entry
    for each cell opened before the open one. *)
Definition cells_read (n : nat) (S : cell_vars) : Prop :=
  (n = 0 /\ v_cell S = (-1)%Z /\ parsed_set S = ∅) \/
  (0 < n /\ (0 <= v_cell S)%Z /\ size (parsed_set S) < n).

Definition cell_well_formed (S : cell_vars) : Prop :=
  (forall k r, parsed_set S !! k = Some r -> well_formed r) /\
  all_in Re.not_dquote (v_essid S) = true /\
  ((0 <= v_cell S)%Z ->
   v_address S <> "" /\ all_in Re.hex_or_colon (v_address S) = true).

Definition add_entries (d1 : gmap string wlan) (S : cell_vars) : cell_vars := {|
  v_cell := v_cell S; v_channel := v_channel S;
  v_quality_num := v_quality_num S; v_quality_denom := v_quality_denom S;
  v_signal_level := v_signal_level S; v_essid := v_essid S;
  v_address := v_address S; v_frequency := v_frequency S;
  parsed_set := parsed_set S ∪ d1
|}.

Definition example_scan : gmap string wlan :=
  scan_result (match_iwlist_v30_output (split_lines example_iwlist_output)).

Definition example_home : wlan := {|
  essid := "home"; cell := 1; channel := 6; quality := 58 # 70;
  signal_level := "52"; address := "00:11:22:33:44:55";
  frequency := 2437 # 1000
|}.

Definition example_cell_1 : list string :=
  ["          Cell 01 - Address: 00:11:22:33:44:55";
   "                    Quality=58/70  Signal level=-52 dBm  ";
   "                    ESSID:" ++ quoted (quoted "" ++ "home")].

Definition example_cell_2 : list string :=
  ["          Cell 02 - Address: 66:77:88:99:AA:BB";
   "                    Quality=20/70  Signal level=-85 dBm  ";
   "                    ESSID:" ++ quoted (quoted "" ++ "home")].

Definition lock_file : string := "/home/admin/reconnect.lock".

Definition example_globals : globals := with_lists ["home"] ["guest"].

Definition example_run (dry : bool) : world (gset string) * outcome unit :=
  main (example_os (Some "/home/admin"))
    (example_flags dry false false (Some "reconnect.lock")) example_globals
    (example_world []).

(** ** The scenarios, evaluated *)

Example scenario_1 :
  find_better_wifi (with_lists ["secA"; "secB"] ["guest"]) (Some "secA")
    (Some (scan_of [("secA", 9 # 10); ("secB", 4 # 10); ("guest", 95 # 100)]))
  = Return (Some "secA").
Proof. vm_compute. reflexivity. Qed.

Example scenario_3 :
  find_better_wifi (with_lists ["secA"] ["guest1"; "guest2"]) (Some "guest1")
    (Some (scan_of [("guest1", 7 # 10); ("guest2", 78 # 100); ("secA", 2 # 10)]))
  = Return (Some "guest1").
Proof. vm_compute. reflexivity. Qed.

Example scenario_5 :
  find_better_wifi (with_lists ["secA"] ["open1"]) (Some "open1")
    (Some (scan_of [("secA", 6 # 10); ("open1", 9 # 10)]))
  = Return (Some "secA").
Proof. vm_compute. reflexivity. Qed.

(** ** Facts about the comparisons *)

Lemma Qlt_bool_true (x y : Q) : Qlt_bool x y = true <-> (x < y)%Q.
Proof.
  unfold Qlt_bool. rewrite negb_true_iff.
  split.
  - intros H. apply Qnot_le_lt. intros Hle.
    apply Qle_bool_iff in Hle. congruence.
  - intros H. destruct (Qle_bool y x) eqn:E; [|reflexivity].
    apply Qle_bool_iff in E. exfalso. exact (Qlt_not_le _ _ H E).
Qed.

Lemma Qlt_bool_false (x y : Q) : Qlt_bool x y = false <-> (y <= x)%Q.
Proof.
  unfold Qlt_bool. rewrite negb_false_iff. apply Qle_bool_iff.
Qed.

(** A string is never below a number: the comparison of the name
    [sufficiently_better] with a quality is false whatever the operands. *)
Lemma lt_Str_Float (s : string) (x : Q) : lt (Str s) (Float x) = false.
Proof. reflexivity. Qed.

Lemma switch_if_better_keeps (L : locals) (wifi : string) (q f : Q) :
  switch_if_better L wifi q f
  = {| sufficiently_better := sufficiently_better L;
       better_quality := better_quality L;
       fudge := Some f |}.
Proof. unfold switch_if_better. rewrite lt_Str_Float. reflexivity. Qed.

Lemma for_each_cons_Return {S X} (body : S -> X -> result S) x l s s' :
  body s x = Return s' ->
  for_each body (x :: l) s = for_each body l s'.
Proof. intros H. simpl. rewrite H. reflexivity. Qed.

(** ** The two loops *)

Lemma in_range_dec G scanned w :
  {in_range G scanned w} + {~ in_range G scanned w}.
Proof.
  unfold in_range. destruct (scanned !! w) as [r|].
  - destruct (Qlt_le_dec (quality r) (signal_quality_lower_bound G))
      as [Hlt|Hle].
    + right. intros (r' & Hr' & Hq). inversion Hr'; subst.
      exact (Qlt_not_le _ _ Hlt Hq).
    + left. by exists r.
  - right. intros (r' & Hr' & _). discriminate Hr'.
Qed.

Section Loops.

Variable G : globals.
Variable scanned : gmap string wlan.
Variable active : string.

(** What one round of the first loop does to a candidate that is out
    of range. *)
Lemma preferred_body_skip aip ad L w :
  ~ in_range G scanned w ->
  preferred_body G scanned active aip ad L w = Return L.
Proof.
  intros Hn. unfold preferred_body.
  destruct (scanned !! w) as [r|] eqn:Hw; [|reflexivity].
  destruct (Qlt_bool (quality r) (signal_quality_lower_bound G)) eqn:Hq;
    [reflexivity|].
  exfalso. apply Hn. exists r. split; [assumption|].
  by apply Qlt_bool_false.
Qed.

Lemma preferred_body_adopt ad L w r :
  scanned !! w = Some r ->
  (signal_quality_lower_bound G <= quality r)%Q ->
  preferred_body G scanned active false ad L w
  = Return {| sufficiently_better := w;
              better_quality := quality r;
              fudge := fudge L |}.
Proof.
  intros Hw Hq. unfold preferred_body. rewrite Hw.
  apply Qlt_bool_false in Hq. rewrite Hq. reflexivity.
Qed.

(** With a preferred active network the first loop never moves the
    choice: where it returns, name and quality are the initial ones. *)
Lemma preferred_loop_keeps ad l : forall L L',
  for_each (preferred_body G scanned active true ad) l L = Return L' ->
  sufficiently_better L' = sufficiently_better L /\
  better_quality L' = better_quality L.
Proof.
  induction l as [|w l IH]; intros L L' H; simpl in H.
  - by inversion H.
  - destruct (preferred_body G scanned active true ad L w) as [Lw|e] eqn:Hb;
      [|discriminate H].
    apply IH in H as [-> ->].
    unfold preferred_body in Hb.
    destruct (scanned !! w) as [r|]; [|by inversion Hb].
    destruct (Qlt_bool _ _); [by inversion Hb|]. simpl in Hb.
    destruct (if String.eqb _ _ then _ else _) as [f|]; [|discriminate Hb].
    rewrite switch_if_better_keeps in Hb. by inversion Hb.
Qed.

(** With the margin in force (no downgrade allowed) the first loop also
    runs to its end. *)
Lemma preferred_loop_returns l : forall L,
  sufficiently_better L = active ->
  exists L', for_each (preferred_body G scanned active true false) l L
             = Return L' /\
             sufficiently_better L' = active /\
             better_quality L' = better_quality L.
Proof.
  induction l as [|w l IH]; intros L HL; simpl.
  - by exists L.
  - assert (exists Lw, preferred_body G scanned active true false L w
                       = Return Lw /\ sufficiently_better Lw = active /\
                       better_quality Lw = better_quality L)
      as (Lw & -> & Hs & Hq).
    { unfold preferred_body.
      destruct (scanned !! w) as [r|]; [|by exists L].
      destruct (Qlt_bool _ _); [by exists L|]. simpl.
      rewrite HL, String.eqb_refl, switch_if_better_keeps.
      eexists. split; [reflexivity|]. by simpl. }
    destruct (IH Lw Hs) as (L' & HL' & ? & ?).
    exists L'. simpl. repeat split; [assumption..|congruence].
Qed.

(** With a non-preferred active network the first loop always returns,
    and it leaves either the initial choice, when no candidate is in
    range, or a candidate of the list that is in range. *)
Lemma preferred_loop_adopts ad l : forall L,
  exists L', for_each (preferred_body G scanned active false ad) l L
             = Return L' /\
             ((L' = L /\ forall w, w ∈ l -> ~ in_range G scanned w) \/
              (sufficiently_better L' ∈ l /\
               in_range G scanned (sufficiently_better L'))).
Proof.
  induction l as [|w l IH]; intros L.
  - exists L. split; [reflexivity|]. left. split; [reflexivity|].
    intros w Hw. by apply not_elem_of_nil in Hw.
  - destruct (in_range_dec G scanned w) as [(r & Hw & Hle)|Hout].
    + rewrite (for_each_cons_Return _ _ _ _ _
                 (preferred_body_adopt ad L w r Hw Hle)).
      destruct (IH {| sufficiently_better := w;
                      better_quality := quality r;
                      fudge := fudge L |})
        as (L' & -> & [[HL Hno]|[Hin Hr]]); exists L';
        (split; [reflexivity|]); right.
      * subst L'. split; [by apply list_elem_of_here|]. by exists r.
      * split; [by apply list_elem_of_further|assumption].
    + rewrite (for_each_cons_Return _ _ _ _ _
                 (preferred_body_skip false ad L w Hout)).
      destruct (IH L) as (L' & -> & [[HL Hno]|[Hin Hr]]); exists L';
        (split; [reflexivity|]).
      * left. split; [assumption|]. intros w' Hw'.
        apply elem_of_cons in Hw' as [->|Hw']; [assumption|by apply Hno].
      * right. split; [by apply list_elem_of_further|assumption].
Qed.

(** The second loop never moves the choice either. *)
Lemma non_preferred_loop_keeps l : forall L L',
  for_each (non_preferred_body G scanned active) l L = Return L' ->
  sufficiently_better L' = sufficiently_better L /\
  better_quality L' = better_quality L.
Proof.
  induction l as [|w l IH]; intros L L' H; simpl in H.
  - by inversion H.
  - destruct (non_preferred_body G scanned active L w) as [Lw|e] eqn:Hb;
      [|discriminate H].
    apply IH in H as [-> ->].
    unfold non_preferred_body in Hb.
    destruct (scanned !! w) as [r|]; [|discriminate Hb].
    destruct (Qlt_bool _ _); [by inversion Hb|]. simpl in Hb.
    rewrite switch_if_better_keeps in Hb. by inversion Hb.
Qed.

End Loops.

(** ** The margin does not reach the decision *)

Section Margin.

Variables G1 G2 : globals.
Hypothesis HG : same_lists_and_bound G1 G2.








End Margin.

(** ** The guards *)

Lemma size_nonzero (scanned : gmap string wlan) :
  size scanned <> 0 -> bool_decide (size scanned = 0) = false.
Proof. intros H. by apply bool_decide_eq_false. Qed.

Lemma lookup_nonempty (scanned : gmap string wlan) w r :
  scanned !! w = Some r -> bool_decide (size scanned = 0) = false.
Proof.
  intros Hw. apply size_nonzero. intros Hz.
  apply map_size_empty_iff in Hz. subst. by rewrite lookup_empty in Hw.
Qed.

Lemma elem_true a l : elem (Some a) l = true <-> a ∈ l.
Proof. simpl. apply bool_decide_eq_true. Qed.

Lemma elem_false a l : elem (Some a) l = false <-> a ∉ l.
Proof. simpl. apply bool_decide_eq_false. Qed.

(** The selection once the guards are passed, for an active network
    that is scanned. *)
Lemma find_better_wifi_guarded G active scanned r :
  (active ∈ preferred_wlans G -> active ∉ non_preferred_wlans G) ->
  active <> "" ->
  scanned !! active = Some r ->
  find_better_wifi G (Some active) (Some scanned)
  = (let aip := elem (Some active) (preferred_wlans G) in
     L1 ← for_each
            (preferred_body G scanned active aip
               (Qlt_bool (quality r) (signal_quality_lower_bound G)))
            (preferred_wlans G)
            {| sufficiently_better := active;
               better_quality := quality r;
               fudge := None |};
     if aip && Qlt_bool (signal_quality_lower_bound G) (better_quality L1)
     then Return (Some (sufficiently_better L1))
     else
       L2 ← for_each (non_preferred_body G scanned active)
              (non_preferred_wlans G) L1;
       Return (Some (sufficiently_better L2))).
Proof.
  intros Hamb Hne Hr. unfold find_better_wifi.
  rewrite (lookup_nonempty _ _ _ Hr).
  assert (elem (Some active) (non_preferred_wlans G)
          && elem (Some active) (preferred_wlans G) = false) as ->.
  { apply andb_false_iff.
    destruct (elem (Some active) (preferred_wlans G)) eqn:E; [|by right].
    left. apply elem_false, Hamb. by apply elem_true. }
  apply String.eqb_neq in Hne. rewrite Hne, Hr. reflexivity.
Qed.

(** With a preferred active network that is below the lower bound, the
    first loop stops at the first candidate in range: [fudge] is read
    before any assignment. *)
Lemma preferred_loop_unbound G scanned active l : forall L,
  sufficiently_better L = active ->
  fudge L = None ->
  (exists w, w ∈ l /\ in_range G scanned w) ->
  for_each (preferred_body G scanned active true true) l L
  = Raise (UnboundLocalError "fudge").
Proof.
  induction l as [|w l IH]; intros L Hs Hf (w' & Hin & Hw').
  - by apply not_elem_of_nil in Hin.
  - destruct (in_range_dec G scanned w) as [(r & Hw & Hq)|Hout].
    + simpl. unfold preferred_body. rewrite Hw.
      apply Qlt_bool_false in Hq. rewrite Hq. simpl.
      rewrite Hs, String.eqb_refl, Hf. reflexivity.
    + rewrite (for_each_cons_Return _ _ _ _ _
                 (preferred_body_skip G scanned active true true L w Hout)).
      apply IH; [assumption..|].
      apply elem_of_cons in Hin as [->|Hin]; [contradiction|].
      by exists w'.
Qed.

(** ** Properties of the selection *)

(** C1 (tier precedence). Whenever [find_better_wifi] returns a decision
    and some identifier of the preferred list is scanned with a quality
    at or above the lower bound, the decision is an identifier of the
    preferred list; with the two lists disjoint it is therefore none of
    the non-preferred identifiers. When the active network is not itself
    preferred, the decision is moreover a preferred identifier in range
    and differs from the active one, whatever the qualities compared. *)
Theorem tier_precedence (G : globals) (a : option string)
    (scanned : gmap string wlan) (d : option string) :
  find_better_wifi G a (Some scanned) = Return d ->
  (exists w, w ∈ preferred_wlans G /\ in_range G scanned w) ->
  exists w, d = Some w /\
    w ∈ preferred_wlans G /\
    ((forall x, x ∈ preferred_wlans G -> x ∉ non_preferred_wlans G) ->
     w ∉ non_preferred_wlans G) /\
    (elem a (preferred_wlans G) = false ->
     in_range G scanned w /\ Some w <> a).
Proof.
  intros H (w0 & Hw0 & r0 & Hr0 & Hq0).
  unfold find_better_wifi in H.
  rewrite (lookup_nonempty _ _ _ Hr0) in H.
  destruct (_ && _); [discriminate H|].
  destruct a as [active|]; [|discriminate H].
  destruct (String.eqb active ""); [discriminate H|].
  destruct (scanned !! active) as [r|]; [|discriminate H].
  destruct (elem (Some active) (preferred_wlans G)) eqn:Haip.
  - destruct (for_each _ _ _) as [L1|e] eqn:H1; [|discriminate H].
    apply preferred_loop_keeps in H1 as [Hs1 _]. simpl in H, Hs1.
    assert (d = Some active) as ->.
    { destruct (Qlt_bool _ (better_quality L1)).
      - inversion H. by rewrite Hs1.
      - destruct (for_each _ _ L1) as [L2|e] eqn:H2; [|discriminate H].
        apply non_preferred_loop_keeps in H2 as [Hs2 _].
        inversion H. by rewrite Hs2, Hs1. }
    apply elem_true in Haip.
    exists active. repeat split; [assumption|auto|discriminate..].
  - destruct (preferred_loop_adopts G scanned active
                (Qlt_bool (quality r) (signal_quality_lower_bound G))
                (preferred_wlans G)
                {| sufficiently_better := active;
                   better_quality := quality r;
                   fudge := None |})
      as (L1 & H1 & Hcase).
    rewrite H1 in H. simpl in H.
    destruct Hcase as [[_ Hno]|[Hin Hr]].
    { exfalso. apply (Hno w0 Hw0). by exists r0. }
    destruct (for_each _ _ L1) as [L2|e] eqn:H2; [|discriminate H].
    apply non_preferred_loop_keeps in H2 as [Hs2 _].
    inversion H; subst d. rewrite Hs2.
    exists (sufficiently_better L1). repeat split; [assumption|auto|assumption|].
    intros Heq. inversion Heq as [Heq']. rewrite Heq' in Hin.
    apply elem_false in Haip. contradiction.
Qed.

Lemma tier_precedence_witness :
  exists w, Some "secA" = Some w /\
    w ∈ preferred_wlans scenario_5_globals /\
    ((forall x, x ∈ preferred_wlans scenario_5_globals ->
                x ∉ non_preferred_wlans scenario_5_globals) ->
     w ∉ non_preferred_wlans scenario_5_globals) /\
    (elem (Some "open1") (preferred_wlans scenario_5_globals) = false ->
     in_range scenario_5_globals scenario_5_scan w /\ Some w <> Some "open1").
Proof.
  apply (tier_precedence scenario_5_globals (Some "open1") scenario_5_scan).
  - vm_compute. reflexivity.
  - exists "secA". split.
    + apply list_elem_of_here.
    + exists (scan_record "secA" (6 # 10)). split.
      * vm_compute. reflexivity.
      * vm_compute. discriminate.
Defined.

(** C2 (downgrade waiver), evaluated on scenario 2 of the specification:
    with the preferred active network below the lower bound, the first
    candidate in range makes the loop read [fudge] before it was ever
    assigned, and the call ends in [UnboundLocalError]; no network is
    adopted. *)
Theorem downgrade_waiver_scenario_2 :
  find_better_wifi (with_lists ["secA"; "secB"] []) (Some "secA")
    (Some (scan_of [("secA", 3 # 10); ("secB", 6 # 10)]))
  = Raise (UnboundLocalError "fudge").
Proof. vm_compute. reflexivity. Qed.

(** The same on every input of that shape. *)
Lemma downgrade_unbound_fudge G active scanned r :
  active ∈ preferred_wlans G ->
  active ∉ non_preferred_wlans G ->
  active <> "" ->
  scanned !! active = Some r ->
  (quality r < signal_quality_lower_bound G)%Q ->
  (exists w, w ∈ preferred_wlans G /\ in_range G scanned w) ->
  find_better_wifi G (Some active) (Some scanned)
  = Raise (UnboundLocalError "fudge").
Proof.
  intros HP HN Hne Hr Hq Hw.
  rewrite (find_better_wifi_guarded G active scanned r); [|auto..].
  apply elem_true in HP. rewrite HP. simpl.
  apply Qlt_bool_true in Hq. rewrite Hq.
  rewrite preferred_loop_unbound; [reflexivity..|assumption].
Qed.

(** C3 (second loop and absent candidates), evaluated on scenario 3 of
    the specification with "guest2" out of reach of the scan: the second
    loop indexes the scan dictionary without testing for the key, and the
    call ends in [KeyError] instead of skipping the candidate. *)
Theorem non_preferred_absent_candidate :
  find_better_wifi (with_lists ["secA"] ["guest1"; "guest2"]) (Some "guest1")
    (Some (scan_of [("guest1", 7 # 10); ("secA", 2 # 10)]))
  = Raise (KeyError "guest2").
Proof. vm_compute. reflexivity. Qed.

(** C4 (a preferred active network above the lower bound stays). When the
    active identifier is in the preferred list, passes the guards and is
    scanned with a quality strictly above the lower bound, the decision is
    the active identifier, whatever else was scanned and whatever the two
    lists hold. *)
Theorem preferred_active_above_bound_stays (G : globals) (active : string)
    (scanned : gmap string wlan) (r : wlan) :
  active ∈ preferred_wlans G ->
  active ∉ non_preferred_wlans G ->
  active <> "" ->
  scanned !! active = Some r ->
  (signal_quality_lower_bound G < quality r)%Q ->
  find_better_wifi G (Some active) (Some scanned) = Return (Some active).
Proof.
  intros HP HN Hne Hr Hq.
  rewrite (find_better_wifi_guarded G active scanned r); [|auto..].
  apply elem_true in HP. rewrite HP. simpl.
  assert (Qlt_bool (quality r) (signal_quality_lower_bound G) = false) as ->.
  { apply Qlt_bool_false. by apply Qlt_le_weak. }
  destruct (preferred_loop_returns G scanned active (preferred_wlans G)
              {| sufficiently_better := active;
                 better_quality := quality r;
                 fudge := None |} eq_refl)
    as (L1 & -> & Hs & Hbq).
  simpl in *. rewrite Hbq.
  apply Qlt_bool_true in Hq. rewrite Hq, Hs. reflexivity.
Qed.

Lemma preferred_active_above_bound_stays_witness :
  find_better_wifi (with_lists ["secA"; "secB"] ["guest"]) (Some "secA")
    (Some (scan_of [("secA", 6 # 10); ("secB", 99 # 100); ("guest", 1 # 1)]))
  = Return (Some "secA").
Proof.
  apply (preferred_active_above_bound_stays
           (with_lists ["secA"; "secB"] ["guest"]) "secA" _
           (scan_record "secA" (6 # 10))).
  - apply list_elem_of_here.
  - apply elem_false. vm_compute. reflexivity.
  - discriminate.
  - vm_compute. reflexivity.
  - vm_compute. reflexivity.
Defined.

(** C5 (empty snapshot). With no scan dictionary, or an empty one, the
    decision is the active identifier as it was given, for every active
    identifier (also an empty or absent one) and every setting of the
    flags; no guard is evaluated. *)
Theorem empty_snapshot_no_op (G : globals) (a : option string) :
  find_better_wifi G a None = Return a /\
  find_better_wifi G a (Some ∅) = Return a.
Proof. split; reflexivity. Qed.

(** C6 as stated fails: with nothing scanned, an absent or empty active
    identifier is returned as the decision and no error is raised. *)
Lemma empty_active_guard_counterexample :
  find_better_wifi initial_globals None None = Return None /\
  find_better_wifi initial_globals (Some "") (Some ∅) = Return (Some "") /\
  ~ fails_with_configuration_error
      (find_better_wifi initial_globals None None).
Proof.
  split; [reflexivity|]. split; [reflexivity|].
  intros [text H]. discriminate H.
Qed.

(** C6, amended (empty-active guard). When the scan dictionary is not
    empty and the active identifier is absent or the empty string, the
    call fails through [bail_with_message] and yields no decision. The
    message is the one of the missing active network, unless the empty
    string is listed as both preferred and non-preferred, where the
    ambiguity guard comes first. *)
Theorem empty_active_guard (G : globals) (a : option string)
    (scanned : gmap string wlan) :
  size scanned <> 0 ->
  a = None \/ a = Some "" ->
  fails_with_configuration_error (find_better_wifi G a (Some scanned)) /\
  (~ ("" ∈ preferred_wlans G /\ "" ∈ non_preferred_wlans G) ->
   find_better_wifi G a (Some scanned)
   = bail_with_message "couln't find active wifi").
Proof.
  intros Hsz Ha. unfold find_better_wifi. rewrite (size_nonzero _ Hsz).
  destruct Ha as [-> | ->].
  - simpl. split; [eexists; reflexivity|reflexivity].
  - destruct (elem (Some "") (non_preferred_wlans G)) eqn:EN,
             (elem (Some "") (preferred_wlans G)) eqn:EP; simpl;
      (split; [eexists; reflexivity|]); try reflexivity.
    intros Hno. exfalso. apply Hno. split; by apply elem_true.
Qed.

Lemma empty_active_guard_witness :
  fails_with_configuration_error
    (find_better_wifi scenario_5_globals None (Some scenario_5_scan)) /\
  (~ ("" ∈ preferred_wlans scenario_5_globals /\
      "" ∈ non_preferred_wlans scenario_5_globals) ->
   find_better_wifi scenario_5_globals None (Some scenario_5_scan)
   = bail_with_message "couln't find active wifi").
Proof.
  apply (empty_active_guard scenario_5_globals None scenario_5_scan).
  - vm_compute. discriminate.
  - left. reflexivity.
Defined.

(** C7 (missing-active guard), evaluated on an active network that the
    scan did not report: the guard calls [bail_with_message] with two
    arguments, so the call ends in [TypeError] before any message is
    written; it is not the exit of [bail_with_message]. *)
Theorem missing_active_scenario :
  find_better_wifi (with_lists ["home"] ["cafe"]) (Some "home")
    (Some (scan_of [("cafe", 8 # 10)]))
  = Raise (TypeError "bail_with_message() takes exactly 1 argument (2 given)").
Proof. vm_compute. reflexivity. Qed.

(** On every such input the call still ends without a decision. *)
Lemma missing_active_no_decision G a scanned :
  size scanned <> 0 ->
  (forall active, a = Some active -> scanned !! active = None) ->
  exists e, find_better_wifi G a (Some scanned) = Raise e.
Proof.
  intros Hsz Hmiss. unfold find_better_wifi. rewrite (size_nonzero _ Hsz).
  destruct (_ && _); [eexists; reflexivity|].
  destruct a as [active|]; [|eexists; reflexivity].
  destruct (String.eqb active ""); [eexists; reflexivity|].
  rewrite (Hmiss active eq_refl). eexists; reflexivity.
Qed.

(** C8 as stated fails: with nothing scanned, an active identifier
    listed in both lists is returned as the decision. *)
Lemma ambiguity_guard_counterexample :
  "a" ∈ preferred_wlans (with_lists ["a"] ["a"]) /\
  "a" ∈ non_preferred_wlans (with_lists ["a"] ["a"]) /\
  find_better_wifi (with_lists ["a"] ["a"]) (Some "a") (Some ∅)
  = Return (Some "a").
Proof.
  split; [apply list_elem_of_here|]. split; [apply list_elem_of_here|].
  reflexivity.
Qed.

(** C8, amended (ambiguity guard). When the scan dictionary is not empty
    and the active identifier is listed as both preferred and
    non-preferred, the call fails through [bail_with_message] with the
    message of the ambiguity and yields no decision. *)
Theorem ambiguity_guard (G : globals) (active : string)
    (scanned : gmap string wlan) :
  size scanned <> 0 ->
  active ∈ preferred_wlans G ->
  active ∈ non_preferred_wlans G ->
  find_better_wifi G (Some active) (Some scanned)
  = bail_with_message
      (active ++ " cannot be both preferred and non-preferred") /\
  fails_with_configuration_error
    (find_better_wifi G (Some active) (Some scanned)).
Proof.
  intros Hsz HP HN.
  assert (find_better_wifi G (Some active) (Some scanned)
          = bail_with_message
              (active ++ " cannot be both preferred and non-preferred"))
    as ->.
  { unfold find_better_wifi. rewrite (size_nonzero _ Hsz).
    apply elem_true in HP, HN. rewrite HP, HN. reflexivity. }
  split; [reflexivity|eexists; reflexivity].
Qed.

Lemma ambiguity_guard_witness :
  find_better_wifi (with_lists ["a"; "b"] ["a"]) (Some "a")
    (Some (scan_of [("a", 9 # 10)]))
  = bail_with_message ("a" ++ " cannot be both preferred and non-preferred") /\
  fails_with_configuration_error
    (find_better_wifi (with_lists ["a"; "b"] ["a"]) (Some "a")
       (Some (scan_of [("a", 9 # 10)]))).
Proof.
  apply (ambiguity_guard (with_lists ["a"; "b"] ["a"]) "a"
           (scan_of [("a", 9 # 10)])).
  - vm_compute. discriminate.
  - apply list_elem_of_here.
  - apply list_elem_of_here.
Defined.


(** C10 (the threshold flag does not reach the decision). Two settings
    of the flags that agree on the two lists, the margin and the lower
    bound, and so differ at most in [signal_quality_threshold], give the
    same decision or the same error on every input. *)
Theorem threshold_flag_irrelevant (G1 G2 : globals) (a : option string)
    (s : option (gmap string wlan)) :
  preferred_wlans G1 = preferred_wlans G2 ->
  non_preferred_wlans G1 = non_preferred_wlans G2 ->
  signal_quality_delta_threshold G1 = signal_quality_delta_threshold G2 ->
  signal_quality_lower_bound G1 = signal_quality_lower_bound G2 ->
  find_better_wifi G1 a s = find_better_wifi G2 a s.
Proof.
  destruct G1, G2. simpl. intros -> -> -> ->. reflexivity.
Qed.

Lemma threshold_flag_irrelevant_witness :
  find_better_wifi scenario_5_globals (Some "open1") (Some scenario_5_scan)
  = find_better_wifi (set_signal_quality_threshold (9 # 10) scenario_5_globals)
      (Some "open1") (Some scenario_5_scan).
Proof.
  apply (threshold_flag_irrelevant scenario_5_globals
           (set_signal_quality_threshold (9 # 10) scenario_5_globals)).
  - reflexivity.
  - reflexivity.
  - reflexivity.
  - reflexivity.
Defined.

(** The same for the flag as the command line sets it. *)
Corollary parsed_threshold_irrelevant (value : Z) (G G' : globals)
    (a : option string) (s : option (gmap string wlan)) :
  parse_signal_quality_threshold value G = Return G' ->
  find_better_wifi G' a s = find_better_wifi G a s.
Proof.
  unfold parse_signal_quality_threshold.
  destruct (hundredth value) as [t|e]; [simpl|discriminate].
  destruct (_ || _); [discriminate|].
  intros H. inversion H. reflexivity.
Qed.

(** * Properties of the rest of the script *)

(** ** The numeric options *)









(** ** The decision is the active network or a preferred one *)

Lemma find_better_wifi_returns (G : globals) (a : option string)
    (s : option (gmap string wlan)) (d : option string) :
  find_better_wifi G a s = Return d ->
  d = a \/
  exists scanned w, s = Some scanned /\ d = Some w /\
    w ∈ preferred_wlans G /\ in_range G scanned w /\
    elem a (preferred_wlans G) = false.
Proof.
  intros H. unfold find_better_wifi in H.
  destruct s as [scanned|]; [|left; by inversion H].
  destruct (bool_decide _); [left; by inversion H|].
  destruct (_ && _); [discriminate H|].
  destruct a as [active|]; [|discriminate H].
  destruct (String.eqb active ""); [discriminate H|].
  destruct (scanned !! active) as [r|]; [|discriminate H].
  destruct (elem (Some active) (preferred_wlans G)) eqn:Haip.
  - left.
    destruct (for_each _ _ _) as [L1|e] eqn:H1; [|discriminate H].
    apply preferred_loop_keeps in H1 as [Hs1 _]. simpl in H, Hs1.
    destruct (Qlt_bool _ (better_quality L1)).
    + inversion H. by rewrite Hs1.
    + destruct (for_each _ _ L1) as [L2|e] eqn:H2; [|discriminate H].
      apply non_preferred_loop_keeps in H2 as [Hs2 _].
      inversion H. by rewrite Hs2, Hs1.
  - destruct (preferred_loop_adopts G scanned active
                (Qlt_bool (quality r) (signal_quality_lower_bound G))
                (preferred_wlans G)
                {| sufficiently_better := active;
                   better_quality := quality r;
                   fudge := None |})
      as (L1 & H1 & Hcase).
    rewrite H1 in H. simpl in H.
    destruct (for_each _ _ L1) as [L2|e] eqn:H2; [|discriminate H].
    apply non_preferred_loop_keeps in H2 as [Hs2 _].
    inversion H; subst d. rewrite Hs2.
    destruct Hcase as [[-> _]|[Hin Hr]]; [by left|].
    right. exists scanned, (sufficiently_better L1). by repeat split.
Qed.

(** No decision moves within a tier, whatever the margin: a decision
    other than the active identifier is an identifier of the preferred
    list, taken when the active one is not in it. *)
Lemma switches_only_to_preferred (G : globals) (a : option string)
    (s : option (gmap string wlan)) :
  switches a (find_better_wifi G a s) ->
  elem a (preferred_wlans G) = false /\
  exists w, find_better_wifi G a s = Return (Some w) /\
            w ∈ preferred_wlans G.
Proof.
  intros (d & Hd & Hne).
  destruct (find_better_wifi_returns G a s d Hd)
    as [->|(sc & w & _ & -> & Hw & _ & Ha)]; [done|].
  split; [exact Ha|]. by exists w.
Qed.

(** X3 (no switch to a non-preferred network). Whenever
    [find_better_wifi] returns, the decision is the active identifier as
    given, or an identifier of the preferred list that is scanned at or
    above the lower bound, and this only when the active one is not
    preferred: the second loop never moves the choice. *)
Theorem decision_active_or_preferred (G : globals) (a : option string)
    (s : option (gmap string wlan)) (d : option string) :
  find_better_wifi G a s = Return d ->
  d = a \/
  exists scanned w, s = Some scanned /\ d = Some w /\
    w ∈ preferred_wlans G /\ in_range G scanned w /\
    elem a (preferred_wlans G) = false.
Proof. apply find_better_wifi_returns. Qed.

(** ** Strings *)

Lemma string_app_cons a (s t : string) : String a s ++ t = String a (s ++ t).
Proof. reflexivity. Qed.

Lemma string_app_nil_l (s : string) : "" ++ s = s.
Proof. reflexivity. Qed.

Lemma string_app_nil_r (s : string) : s ++ "" = s.
Proof.
  induction s as [|a s IH]; [reflexivity|].
  by rewrite string_app_cons, IH.
Qed.

Lemma string_app_assoc (s t u : string) : (s ++ t) ++ u = s ++ (t ++ u).
Proof.
  induction s as [|a s IH]; [reflexivity|].
  by rewrite !string_app_cons, IH.
Qed.

Lemma all_in_app c s t : all_in c (s ++ t) = all_in c s && all_in c t.
Proof.
  induction s as [|a s IH]; [reflexivity|].
  rewrite string_app_cons. simpl. by rewrite IH, andb_assoc.
Qed.

(** ** The matcher reports matches *)

Lemma strip_prefix_Some t s s' :
  Re.strip_prefix t s = Some s' <-> s = t ++ s'.
Proof.
  revert s. induction t as [|a t IH]; intros s; simpl.
  - split; [by inversion 1|by intros ->].
  - destruct s as [|b s]; [split; discriminate|].
    destruct (Ascii.eqb a b) eqn:E.
    + apply Ascii.eqb_eq in E as ->. rewrite IH.
      split; [by intros ->|by inversion 1].
    + apply Ascii.eqb_neq in E. split; [discriminate|].
      inversion 1. congruence.
Qed.

Lemma greedy_sound {R} c (k : string -> option R) s r :
  Re.greedy c k s = Some r ->
  exists x u, s = x ++ u /\ all_in c x = true /\ k u = Some r.
Proof.
  induction s as [|a s IH]; simpl; intros H.
  - exists "", "". by repeat split.
  - destruct (c a) eqn:Ha.
    + destruct (Re.greedy c k s) as [r'|] eqn:Hg.
      * inversion H; subst r'.
        destruct (IH eq_refl) as (x & u & -> & Hx & Hk).
        exists (String a x), u.
        split; [reflexivity|]. split; [simpl; by rewrite Ha, Hx|assumption].
      * exists "", (String a s). by repeat split.
    + exists "", (String a s). by repeat split.
Qed.

Lemma greedy_group_sound {R} c (k : string -> string -> option R) s : forall g r,
  Re.greedy_group c k g s = Some r ->
  exists x u, s = x ++ u /\ all_in c x = true /\ k (g ++ x) u = Some r.
Proof.
  induction s as [|a s IH]; simpl; intros g r H.
  - exists "", "". rewrite (string_app_nil_r g). by repeat split.
  - destruct (c a) eqn:Ha.
    + destruct (Re.greedy_group c k (g ++ String a "") s) as [r'|] eqn:Hg.
      * inversion H; subst r'.
        destruct (IH _ _ Hg) as (x & u & -> & Hx & Hk).
        exists (String a x), u.
        split; [reflexivity|]. split; [simpl; by rewrite Ha, Hx|].
        by rewrite string_app_assoc in Hk.
      * exists "", (String a s). rewrite (string_app_nil_r g). by repeat split.
    + exists "", (String a s). rewrite (string_app_nil_r g). by repeat split.
Qed.

Lemma matches_sound p : forall g0 s g,
  Re.matches p g0 s = Some g ->
  exists u rest gs, s = u ++ rest /\ g = (g0 ++ gs)%list /\ parses p u gs.
Proof.
  induction p as [|i p IH]; intros g0 s g H; simpl in H.
  - inversion H. exists "", s, []. rewrite app_nil_r.
    repeat split. constructor.
  - destruct i as [t|c|c|c|c].
    + destruct (Re.strip_prefix t s) as [s'|] eqn:Hs; [|discriminate].
      apply strip_prefix_Some in Hs as ->.
      destruct (IH _ _ _ H) as (u & rest & gs & -> & -> & Hp).
      exists (t ++ u), rest, gs. rewrite string_app_assoc.
      repeat split. by constructor.
    + destruct s as [|a s]; [discriminate|].
      destruct (c a) eqn:Ha; [|discriminate].
      destruct (IH _ _ _ H) as (u & rest & gs & -> & -> & Hp).
      exists (String a u), rest, gs. repeat split. by constructor.
    + apply greedy_sound in H as (x & s' & -> & Hx & H).
      destruct (IH _ _ _ H) as (u & rest & gs & -> & -> & Hp).
      exists (x ++ u), rest, gs. rewrite string_app_assoc.
      repeat split. by constructor.
    + destruct s as [|a s]; [discriminate|].
      destruct (c a) eqn:Ha; [|discriminate].
      apply greedy_sound in H as (x & s' & -> & Hx & H).
      destruct (IH _ _ _ H) as (u & rest & gs & -> & -> & Hp).
      exists (String a (x ++ u)), rest, gs.
      rewrite string_app_cons, string_app_assoc.
      repeat split. by constructor.
    + destruct s as [|a s]; [discriminate|].
      destruct (c a) eqn:Ha; [|discriminate].
      apply greedy_group_sound in H as (x & s' & -> & Hx & H).
      destruct (IH _ _ _ H) as (u & rest & gs & -> & -> & Hp).
      exists (String a (x ++ u)), rest, (String a x :: gs).
      rewrite string_app_cons, string_app_assoc, <- app_assoc.
      repeat split. by constructor.
Qed.

(** ** The matcher finds a match when there is one *)

Lemma greedy_complete {R} c (k : string -> option R) x : forall u,
  all_in c x = true -> is_Some (k u) -> is_Some (Re.greedy c k (x ++ u)).
Proof.
  induction x as [|a x IH]; intros u Hx Hk; simpl in *.
  - destruct u as [|b u]; simpl; [assumption|].
    destruct (c b); [|assumption].
    destruct (Re.greedy c k u); [by eexists|assumption].
  - apply andb_true_iff in Hx as [-> Hx].
    destruct (IH u Hx Hk) as [r ->]. by eexists.
Qed.

Lemma greedy_group_complete {R} c (k : string -> string -> option R) x :
  forall g u,
  all_in c x = true -> (forall g', is_Some (k g' u)) ->
  is_Some (Re.greedy_group c k g (x ++ u)).
Proof.
  induction x as [|a x IH]; intros g u Hx Hk; simpl in *.
  - destruct u as [|b u]; simpl; [apply Hk|].
    destruct (c b); [|apply Hk].
    destruct (Re.greedy_group c k _ u); [by eexists|apply Hk].
  - apply andb_true_iff in Hx as [-> Hx].
    destruct (IH (g ++ String a "") u Hx Hk) as [r ->]. by eexists.
Qed.

Lemma matches_complete p u gs :
  parses p u gs -> forall g0 rest, is_Some (Re.matches p g0 (u ++ rest)).
Proof.
  induction 1 as [|t p u gs _ IH|c p a u gs Ha _ IH|c p x u gs Hx _ IH
                  |c p a x u gs Ha Hx _ IH|c p a x u gs Ha Hx _ IH];
    intros g0 rest; simpl.
  - by eexists.
  - rewrite string_app_assoc.
    rewrite (proj2 (strip_prefix_Some t _ (u ++ rest)) eq_refl). apply IH.
  - rewrite Ha. apply IH.
  - rewrite string_app_assoc. apply greedy_complete; [assumption|apply IH].
  - rewrite Ha, string_app_assoc.
    apply greedy_complete; [assumption|apply IH].
  - rewrite Ha, string_app_assoc.
    apply greedy_group_complete; [assumption|]. intros g'. apply IH.
Qed.

(** ** The groups of the patterns *)

Ltac invert_parses :=
  repeat match goal with
  | H : parses (_ :: _) _ _ |- _ => inversion H; clear H; subst
  | H : parses [] _ _ |- _ => inversion H; clear H; subst
  end.

Lemma int_from_nonneg s : forall n,
  (0 <= n)%Z -> all_in Re.digit s = true -> (0 <= int_from n s)%Z.
Proof.
  induction s as [|a s IH]; intros n Hn Hs; simpl in *; [assumption|].
  apply andb_true_iff in Hs as [Ha Hs]. apply IH; [|assumption].
  unfold Re.digit in Ha. apply andb_true_iff in Ha as [Ha _].
  apply N.leb_le in Ha. lia.
Qed.

Lemma int_of_digits_nonneg s :
  all_in Re.digit s = true -> (0 <= int_of_digits s)%Z.
Proof. apply int_from_nonneg. lia. Qed.

Lemma cell_header_groups line m :
  Re.match_ cell_header_pattern line = Some m ->
  exists c a, m = [c; a] /\
    all_in Re.digit c = true /\ c <> "" /\
    all_in Re.hex_or_colon a = true /\ a <> "".
Proof.
  intros H. apply matches_sound in H as (u & rest & gs & _ & -> & Hp).
  unfold cell_header_pattern in Hp. invert_parses.
  eexists _, _. split; [reflexivity|]. simpl.
  repeat match goal with H : _ = true |- _ => rewrite H; clear H end.
  by repeat split.
Qed.

Lemma quality_groups line m :
  Re.match_ quality_and_siqnal_pattern line = Some m ->
  exists n d l, m = [n; d; l] /\
    all_in Re.digit n = true /\ all_in Re.digit d = true /\
    all_in Re.digit l = true.
Proof.
  intros H. apply matches_sound in H as (u & rest & gs & _ & -> & Hp).
  unfold quality_and_siqnal_pattern in Hp. invert_parses.
  eexists _, _, _. split; [reflexivity|]. simpl.
  repeat match goal with H : _ = true |- _ => rewrite H; clear H end.
  by repeat split.
Qed.

Lemma essid_groups (p : list Re.item) line m :
  p = essid_pattern \/ p = iwconfig_essid_pattern ->
  Re.match_ p line = Some m ->
  exists e, m = [e] /\ all_in Re.not_dquote e = true /\ e <> "".
Proof.
  intros Hp H. apply matches_sound in H as (u & rest & gs & _ & -> & H).
  destruct Hp as [-> | ->].
  - unfold essid_pattern in H. invert_parses.
    eexists. split; [reflexivity|]. simpl.
    repeat match goal with H : _ = true |- _ => rewrite H; clear H end.
    by split.
  - unfold iwconfig_essid_pattern in H. invert_parses.
    eexists. split; [reflexivity|]. simpl.
    repeat match goal with H : _ = true |- _ => rewrite H; clear H end.
    by split.
Qed.

(** ** The loop of match_iwlist_v30_output *)

Lemma iwlist_line_header S line m :
  Re.match_ cell_header_pattern line = Some m ->
  iwlist_line S line = d ← enter_cell S; Done (new_cell m d).
Proof. intros H. unfold iwlist_line. rewrite H. reflexivity. Qed.

(** A line that opens no cell leaves the cell number and the dictionary
    as they are. *)
Lemma iwlist_line_other S line S' :
  Re.match_ cell_header_pattern line = None ->
  iwlist_line S line = Done S' ->
  v_cell S' = v_cell S /\ parsed_set S' = parsed_set S /\
  v_address S' = v_address S.
Proof.
  intros H. unfold iwlist_line. rewrite H.
  destruct (Re.match_ channel_pattern line); [by inversion 1|].
  destruct (Re.match_ freq_pattern line).
  { destruct (float_of_digits_and_points _); simpl; [by inversion 1|discriminate]. }
  destruct (Re.match_ quality_and_siqnal_pattern line); [by inversion 1|].
  destruct (Re.match_ essid_pattern line); by inversion 1.
Qed.

Lemma for_each_line_app {S} (body : S -> string -> outcome S) l1 l2 s :
  for_each_line body (l1 ++ l2) s
  = s' ← for_each_line body l1 s; for_each_line body l2 s'.
Proof.
  revert s. induction l1 as [|x l1 IH]; intros s; simpl; [reflexivity|].
  destruct (body s x); simpl; [apply IH|reflexivity].
Qed.

Lemma for_each_line_invariant {S} (body : S -> string -> outcome S)
    (P : S -> Prop) :
  (forall s line s', P s -> body s line = Done s' -> P s') ->
  forall l s s', P s -> for_each_line body l s = Done s' -> P s'.
Proof.
  intros Hbody. induction l as [|x l IH]; intros s s' Hs H; simpl in H.
  - by inversion H; subst.
  - destruct (body s x) as [s1|] eqn:Hb; [|discriminate].
    simpl in H. eapply IH; [|exact H]. by eapply Hbody.
Qed.

Lemma enter_cell_Done S d :
  enter_cell S = Done d ->
  ((v_cell S < 0)%Z /\ d = parsed_set S) \/
  ((0 <= v_cell S)%Z /\ v_quality_denom S <> 0%Z /\
   d = <[v_essid S :=
          {| essid := v_essid S; cell := v_cell S; channel := v_channel S;
             quality := (inject_Z (v_quality_num S)
                         / inject_Z (v_quality_denom S))%Q;
             signal_level := v_signal_level S; address := v_address S;
             frequency := v_frequency S |}]> (parsed_set S)).
Proof.
  unfold enter_cell.
  destruct (0 <=? v_cell S)%Z eqn:Hc.
  - apply Z.leb_le in Hc.
    destruct (v_quality_denom S =? 0)%Z eqn:Hd; [discriminate|].
    apply Z.eqb_neq in Hd. inversion 1. right. by repeat split.
  - apply Z.leb_gt in Hc. inversion 1. by left.
Qed.

(** *** Keys and names *)

Lemma enter_cell_keyed S d :
  keyed_by_essid (parsed_set S) -> enter_cell S = Done d -> keyed_by_essid d.
Proof.
  intros HS H. apply enter_cell_Done in H as [[_ ->]|(_ & _ & ->)];
    [assumption|].
  intros k r. rewrite lookup_insert. case_decide as Hk.
  - inversion 1. by subst.
  - apply HS.
Qed.

Lemma iwlist_line_keyed S line S' :
  keyed_by_essid (parsed_set S) -> iwlist_line S line = Done S' ->
  keyed_by_essid (parsed_set S').
Proof.
  intros HS H.
  destruct (Re.match_ cell_header_pattern line) as [m|] eqn:Hm.
  - rewrite (iwlist_line_header _ _ _ Hm) in H.
    destruct (enter_cell S) as [d|] eqn:Hd; [|discriminate].
    inversion H; subst. simpl. by eapply enter_cell_keyed.
  - apply (iwlist_line_other _ _ _ Hm) in H as (_ & -> & _). assumption.
Qed.

(** X5 (keys of the scan). In the dictionary that
    [match_iwlist_v30_output] returns, every entry is stored under its own
    [essid] field. *)
Theorem scan_keys_are_essids (output : list string) (d : gmap string wlan)
    (k : string) (r : wlan) :
  match_iwlist_v30_output output = Done d ->
  d !! k = Some r ->
  essid r = k.
Proof.
  unfold match_iwlist_v30_output. intros H.
  destruct (for_each_line iwlist_line output no_cell) as [S|] eqn:HS;
    [|discriminate].
  simpl in H. revert k r. change (keyed_by_essid d).
  eapply enter_cell_keyed; [|exact H].
  eapply (for_each_line_invariant iwlist_line
            (fun S => keyed_by_essid (parsed_set S))); [|  |exact HS].
  - intros s line s'. apply iwlist_line_keyed.
  - intros k r. simpl. by rewrite lookup_empty.
Qed.

Lemma is_cell_header_true line :
  is_cell_header line = true <-> exists m, Re.match_ cell_header_pattern line = Some m.
Proof. unfold is_cell_header. rewrite bool_decide_eq_true. reflexivity. Qed.

Lemma is_cell_header_false line :
  is_cell_header line = false <-> Re.match_ cell_header_pattern line = None.
Proof.
  unfold is_cell_header. rewrite bool_decide_eq_false.
  destruct (Re.match_ _ _) as [m|].
  - split; [|discriminate]. intros H. destruct H. by eexists.
  - split; [reflexivity|]. intros _ [? ?]. discriminate.
Qed.

Lemma new_cell_nonneg line m d :
  Re.match_ cell_header_pattern line = Some m -> (0 <= v_cell (new_cell m d))%Z.
Proof.
  intros H. apply cell_header_groups in H as (c & a & -> & Hc & _).
  simpl. by apply int_of_digits_nonneg.
Qed.

Lemma size_insert_le (k : string) (x : wlan) (m : gmap string wlan) :
  size (<[k:=x]> m) <= 1 + size m.
Proof.
  destruct (m !! k) eqn:E.
  - rewrite map_size_insert_Some by done. lia.
  - rewrite map_size_insert_None by done. lia.
Qed.

(** *** Cells and entries *)

Lemma iwlist_line_cells n S line S' :
  cells_read n S -> iwlist_line S line = Done S' ->
  cells_read (if is_cell_header line then 1 + n else n) S'.
Proof.
  intros HS H.
  destruct (Re.match_ cell_header_pattern line) as [m|] eqn:Hm.
  - rewrite (proj2 (is_cell_header_true line)) by eauto.
    rewrite (iwlist_line_header _ _ _ Hm) in H.
    destruct (enter_cell S) as [d|] eqn:Hd; [|discriminate].
    inversion H; subst. right. split; [lia|].
    split; [by eapply new_cell_nonneg|]. simpl.
    apply enter_cell_Done in Hd as [[Hc ->]|(Hc & _ & ->)].
    + destruct HS as [(-> & _ & ->)|(? & ? & ?)]; [|lia].
      rewrite map_size_empty. lia.
    + destruct HS as [(_ & ? & _)|(? & _ & Hsz)]; [lia|].
      pose proof (size_insert_le (v_essid S)
        {| essid := v_essid S; cell := v_cell S; channel := v_channel S;
           quality := (inject_Z (v_quality_num S)
                       / inject_Z (v_quality_denom S))%Q;
           signal_level := v_signal_level S; address := v_address S;
           frequency := v_frequency S |} (parsed_set S)). lia.
  - rewrite (proj2 (is_cell_header_false line) Hm).
    apply (iwlist_line_other _ _ _ Hm) in H as (Hc & Hp & _).
    unfold cells_read. rewrite Hc, Hp. exact HS.
Qed.

Lemma for_each_line_cells output : forall n S S',
  cells_read n S -> for_each_line iwlist_line output S = Done S' ->
  cells_read (n + count_cells output) S'.
Proof.
  induction output as [|line output IH]; intros n S S' HS H; simpl in H.
  - inversion H; subst. simpl. by rewrite Nat.add_0_r.
  - destruct (iwlist_line S line) as [S1|] eqn:H1; [|discriminate].
    simpl in H. pose proof (iwlist_line_cells _ _ _ _ HS H1) as HS1.
    apply (IH _ _ _ HS1) in H. simpl.
    destruct (is_cell_header line).
    + by replace (n + (1 + count_cells output))
        with (1 + n + count_cells output) by lia.
    + exact H.
Qed.

(** X6 (entries and cells). A scan that returns has at most one entry
    for each cell header of the output, and it is empty exactly when the
    output has no cell header. *)
Theorem scan_entries_and_cells (output : list string) (d : gmap string wlan) :
  match_iwlist_v30_output output = Done d ->
  size d <= count_cells output /\ (d = ∅ <-> count_cells output = 0).
Proof.
  unfold match_iwlist_v30_output. intros H.
  destruct (for_each_line iwlist_line output no_cell) as [S|] eqn:HS;
    [|discriminate].
  simpl in H.
  assert (cells_read 0 no_cell) as H0 by (left; by repeat split).
  apply (for_each_line_cells _ _ _ _ H0) in HS. simpl in HS.
  apply enter_cell_Done in H as [[Hc ->]|(Hc & _ & ->)].
  - destruct HS as [(-> & _ & ->)|(? & ? & ?)]; [|lia].
    rewrite map_size_empty. by split.
  - destruct HS as [(_ & ? & _)|(? & _ & Hsz)]; [lia|].
    split.
    + pose proof (size_insert_le (v_essid S)
        {| essid := v_essid S; cell := v_cell S; channel := v_channel S;
           quality := (inject_Z (v_quality_num S)
                       / inject_Z (v_quality_denom S))%Q;
           signal_level := v_signal_level S; address := v_address S;
           frequency := v_frequency S |} (parsed_set S)). lia.
    + split; [|lia]. intros He. by apply insert_non_empty in He.
Qed.

(** *** Entries are well formed *)

Lemma enter_cell_well_formed S d :
  cell_well_formed S -> enter_cell S = Done d ->
  forall k r, d !! k = Some r -> well_formed r.
Proof.
  intros (Hd & He & Ha) H.
  apply enter_cell_Done in H as [[_ ->]|(Hc & Hq0 & ->)]; [assumption|].
  intros k r. rewrite lookup_insert. case_decide as Hk; [|apply Hd].
  inversion 1; subst r. destruct (Ha Hc) as [Ha1 Ha2].
  repeat split; simpl; assumption.
Qed.

Lemma iwlist_line_well_formed S line S' :
  cell_well_formed S -> iwlist_line S line = Done S' -> cell_well_formed S'.
Proof.
  intros HS H. pose proof HS as (Hd & He & Ha).
  unfold iwlist_line in H.
  destruct (Re.match_ cell_header_pattern line) as [m|] eqn:Hm.
  { destruct (enter_cell S) as [d|] eqn:Hent; [|discriminate].
    simpl in H. inversion H; subst S'; clear H.
    apply cell_header_groups in Hm as (c & a & -> & Hc & _ & Ha1 & Ha2).
    split; [by eapply enter_cell_well_formed|].
    simpl. repeat split; try lia; assumption. }
  destruct (Re.match_ channel_pattern line) as [m1|].
  { inversion H; subst S'; clear H. exact HS. }
  destruct (Re.match_ freq_pattern line) as [m2|].
  { destruct (float_of_digits_and_points _); [|discriminate].
    simpl in H. inversion H; subst S'; clear H. exact HS. }
  destruct (Re.match_ quality_and_siqnal_pattern line) as [m3|] eqn:Hm3.
  { inversion H; subst S'; clear H. exact HS. }
  destruct (Re.match_ essid_pattern line) as [m4|] eqn:Hm4.
  { inversion H; subst S'; clear H.
    apply (essid_groups essid_pattern) in Hm4 as (e & -> & He' & _);
      [|by left].
    split; [assumption|]. simpl. split; [exact He'|exact Ha]. }
  inversion H; by subst.
Qed.

(** X7 (entries of the scan). Every entry of a scan that returns has a
    cell number that is not negative, a non-empty address made of the
    characters 0-9, A-F and the colon, and a name without double quote. *)
Theorem scan_entries_well_formed (output : list string)
    (d : gmap string wlan) (k : string) (r : wlan) :
  match_iwlist_v30_output output = Done d ->
  d !! k = Some r ->
  well_formed r.
Proof.
  unfold match_iwlist_v30_output. intros H.
  destruct (for_each_line iwlist_line output no_cell) as [S|] eqn:HS;
    [|discriminate].
  simpl in H. revert k r.
  eapply enter_cell_well_formed; [|exact H].
  eapply (for_each_line_invariant iwlist_line cell_well_formed);
    [apply iwlist_line_well_formed| |exact HS].
  split; [intros k r; simpl; by rewrite lookup_empty|].
  simpl. repeat split; lia.
Qed.

(** *** Cells compose *)

Lemma enter_cell_add d1 S :
  enter_cell (add_entries d1 S) = d ← enter_cell S; Done (d ∪ d1).
Proof.
  unfold enter_cell. simpl.
  destruct (0 <=? v_cell S)%Z; [|reflexivity].
  destruct (v_quality_denom S =? 0)%Z; [reflexivity|]. simpl.
  by rewrite insert_union_l.
Qed.

Lemma iwlist_line_add d1 S line :
  iwlist_line (add_entries d1 S) line
  = S' ← iwlist_line S line; Done (add_entries d1 S').
Proof.
  unfold iwlist_line.
  destruct (Re.match_ cell_header_pattern line) as [m|].
  { rewrite enter_cell_add. by destruct (enter_cell S). }
  destruct (Re.match_ channel_pattern line); [reflexivity|].
  destruct (Re.match_ freq_pattern line).
  { by destruct (float_of_digits_and_points _). }
  destruct (Re.match_ quality_and_siqnal_pattern line); [reflexivity|].
  destruct (Re.match_ essid_pattern line); reflexivity.
Qed.

Lemma for_each_line_add d1 output : forall S,
  for_each_line iwlist_line output (add_entries d1 S)
  = S' ← for_each_line iwlist_line output S; Done (add_entries d1 S').
Proof.
  induction output as [|line output IH]; intros S; simpl; [reflexivity|].
  rewrite iwlist_line_add.
  destruct (iwlist_line S line) as [S1|]; simpl; [apply IH|reflexivity].
Qed.

(** X8 (later cells override earlier ones). The scan of an output cut
    before a cell header is the scan of the second part laid over the scan
    of the first: an entry of the second part replaces an entry of the
    first part of the same name, and the other entries of both are
    kept. *)
Theorem scan_cells_compose (before : list string) (header : string)
    (after : list string) (d1 d2 : gmap string wlan) :
  is_cell_header header = true ->
  match_iwlist_v30_output before = Done d1 ->
  match_iwlist_v30_output (header :: after) = Done d2 ->
  match_iwlist_v30_output (before ++ header :: after) = Done (d2 ∪ d1).
Proof.
  intros Hh H1 H2. apply is_cell_header_true in Hh as [m Hm].
  assert (for_each_line iwlist_line after (new_cell m ∅) ≫= enter_cell
          = Done d2) as H2'.
  { unfold match_iwlist_v30_output in H2. simpl in H2.
    rewrite (iwlist_line_header _ _ _ Hm) in H2. exact H2. }
  clear H2. unfold match_iwlist_v30_output in *.
  rewrite for_each_line_app.
  destruct (for_each_line iwlist_line before no_cell) as [S1|];
    [|discriminate H1].
  change (enter_cell S1 = Done d1) in H1.
  change (for_each_line iwlist_line (header :: after) S1 ≫= enter_cell
          = Done (d2 ∪ d1)).
  simpl. rewrite (iwlist_line_header _ _ _ Hm), H1.
  change (for_each_line iwlist_line after (new_cell m d1) ≫= enter_cell
          = Done (d2 ∪ d1)).
  replace (new_cell m d1) with (add_entries d1 (new_cell m ∅)).
  2:{ unfold add_entries, new_cell. simpl. by rewrite (left_id_L ∅ (∪)). }
  rewrite for_each_line_add.
  destruct (for_each_line iwlist_line after (new_cell m ∅)) as [S2|];
    [|discriminate H2'].
  change (enter_cell S2 = Done d2) in H2'.
  change (enter_cell (add_entries d1 S2) = Done (d2 ∪ d1)).
  rewrite enter_cell_add, H2'. reflexivity.
Qed.

(** ** match_iwconfig_v30_essid *)

Lemma not_dquote_false a : Re.not_dquote a = false <-> a = Re.dquote.
Proof.
  unfold Re.not_dquote. rewrite negb_false_iff. apply Ascii.eqb_eq.
Qed.

Lemma all_in_dquote u v :
  all_in Re.not_dquote (u ++ String Re.dquote v) = false.
Proof.
  rewrite all_in_app. simpl. apply andb_false_r.
Qed.

Lemma quoted_app s t : quoted s ++ t = s ++ String Re.dquote t.
Proof. unfold quoted. by rewrite string_app_assoc. Qed.

(** Where the first double quote of a text is. *)
Lemma first_dquote P : forall B X Y,
  all_in Re.not_dquote P = true ->
  P ++ String Re.dquote X = B ++ String Re.dquote Y ->
  (B = P /\ X = Y) \/
  (exists B', B = P ++ String Re.dquote B' /\ X = B' ++ String Re.dquote Y).
Proof.
  induction P as [|a P IH]; intros B X Y HP H.
  - destruct B as [|b B].
    + left. by inversion H.
    + right. inversion H; subst. by exists B.
  - simpl in HP. apply andb_true_iff in HP as [Ha HP].
    destruct B as [|b B].
    + inversion H; subst.
      rewrite (proj2 (not_dquote_false Re.dquote) eq_refl) in Ha.
      discriminate.
    + inversion H; subst.
      destruct (IH _ _ _ HP H2) as [[-> ->]|(B' & -> & ->)].
      * by left.
      * right. by exists B'.
Qed.

Lemma iwconfig_essid_shape a x b y E c z rest :
  String a (x ++ String b (y ++ (E ++ String c (z ++ (quoted "" ++ "")))))
    ++ rest
  = String a (x ++ String b y) ++ E ++ quoted (String c z) ++ rest.
Proof.
  unfold quoted.
  rewrite (string_app_nil_l (String Re.dquote "")).
  rewrite (string_app_nil_r (String Re.dquote "")).
  rewrite !string_app_cons. f_equal.
  rewrite !string_app_assoc. f_equal.
  rewrite !string_app_cons. f_equal.
  rewrite !string_app_assoc. f_equal. f_equal.
  rewrite !string_app_cons. f_equal.
  rewrite !string_app_assoc. reflexivity.
Qed.

Lemma iwconfig_essid_match line m :
  Re.match_ iwconfig_essid_pattern line = Some m ->
  exists before e rest,
    m = [e] /\ e <> "" /\ all_in Re.not_dquote e = true /\
    line = before ++ quoted "ESSID:" ++ quoted e ++ rest.
Proof.
  intros H. apply matches_sound in H as (u & rest & gs & -> & -> & Hp).
  unfold iwconfig_essid_pattern in Hp.
  remember (quoted "ESSID:") as E.
  invert_parses.
  lazymatch goal with
  | |- context [String ?a (?x ++ String ?b (?y ++ (_ ++ String ?c (?z ++ _)))) ++ _] =>
    exists (String a (x ++ String b y)), (String c z), rest
  end.
  split; [reflexivity|]. split; [discriminate|].
  split; [simpl; by repeat match goal with H : _ = true |- _ => rewrite H end|].
  apply iwconfig_essid_shape.
Qed.

(** X9 (the active network comes from the output). A name that
    [match_iwconfig_v30_essid] returns is not empty, holds no double
    quote, and stands in a line of the output between double quotes after
    the text ESSID: (with a colon). *)
Theorem active_essid_reported (output : list string) (e : string) :
  match_iwconfig_v30_essid output = Some e ->
  e <> "" /\ all_in Re.not_dquote e = true /\
  exists line before rest,
    line ∈ output /\ line = before ++ quoted "ESSID:" ++ quoted e ++ rest.
Proof.
  induction output as [|line output IH]; simpl; [discriminate|].
  destruct (Re.match_ iwconfig_essid_pattern line) as [m|] eqn:Hm.
  - intros H. inversion H; subst e; clear H.
    apply iwconfig_essid_match in Hm as (before & e & rest & -> & He & Hq & ->).
    simpl. split; [assumption|]. split; [assumption|].
    eexists _, before, rest. split; [apply list_elem_of_here|reflexivity].
  - intros H. destruct (IH H) as (He & Hq & l & before & rest & Hin & ->).
    split; [assumption|]. split; [assumption|].
    eexists _, before, rest. split; [by apply list_elem_of_further|reflexivity].
Qed.

Lemma no_dquote_no_match line :
  all_in Re.not_dquote line = true ->
  Re.match_ iwconfig_essid_pattern line = None.
Proof.
  intros Hq. destruct (Re.match_ iwconfig_essid_pattern line) as [m|] eqn:Hm;
    [|reflexivity].
  apply iwconfig_essid_match in Hm as (before & e & rest & _ & _ & _ & ->).
  rewrite quoted_app, <- string_app_assoc, all_in_dquote in Hq. discriminate.
Qed.

(** X10 (the line of an associated interface). When the lines before
    hold no double quote, and a line is made of some text, white space,
    ESSID: and a name between the only two double quotes of the line,
    [match_iwconfig_v30_essid] returns that name, whatever follows. *)
Theorem active_essid_found (earlier later : list string)
    (before spaces name rest : string) :
  Forall (fun line => all_in Re.not_dquote line = true) earlier ->
  before <> "" -> all_in Re.dot before = true ->
  all_in Re.not_dquote before = true ->
  spaces <> "" -> all_in Re.space spaces = true ->
  name <> "" -> all_in Re.not_dquote name = true ->
  all_in Re.not_dquote rest = true ->
  match_iwconfig_v30_essid
    (earlier ++ (before ++ spaces ++ quoted "ESSID:" ++ quoted name ++ rest)
             :: later)
  = Some name.
Proof.
  intros Hearlier Hb Hbd Hbq Hs Hss Hn Hnq Hrq.
  induction Hearlier as [|line earlier Hline _ IH]; simpl.
  2:{ by rewrite (no_dquote_no_match _ Hline). }
  set (line := before ++ spaces ++ quoted "ESSID:" ++ quoted name ++ rest).
  assert (is_Some (Re.match_ iwconfig_essid_pattern line)) as [m Hm].
  { destruct before as [|a before]; [done|].
    destruct spaces as [|b spaces]; [done|].
    destruct name as [|c name]; [done|].
    simpl in Hbd, Hss, Hnq.
    apply andb_true_iff in Hbd as [Ha Hbd].
    apply andb_true_iff in Hss as [Hb' Hss].
    apply andb_true_iff in Hnq as [Hc Hnq].
    assert (parses iwconfig_essid_pattern
              (String a (before ++ String b (spaces ++
                 (quoted "ESSID:" ++ String c (name ++ (quoted "" ++ ""))))))
              [String c name]) as Hp.
    { unfold iwconfig_essid_pattern. repeat (constructor; try assumption). }
    pose proof (matches_complete _ _ _ Hp [] rest) as Hc'.
    rewrite iwconfig_essid_shape in Hc'.
    unfold line, Re.match_.
    replace (String a before ++ String b spaces ++ quoted "ESSID:"
             ++ quoted (String c name) ++ rest)
      with (String a (before ++ String b spaces) ++ quoted "ESSID:"
            ++ quoted (String c name) ++ rest); [exact Hc'|].
    by rewrite !string_app_cons, string_app_assoc. }
  rewrite Hm. f_equal.
  apply iwconfig_essid_match in Hm as (B & e & R & -> & He & Heq & Hline).
  simpl. unfold line in Hline.
  (* both sides split the line at its double quotes *)
  rewrite !quoted_app in Hline.
  rewrite <- !string_app_assoc in Hline.
  apply first_dquote in Hline.
  2:{ rewrite !all_in_app, Hbq. simpl.
      assert (all_in Re.not_dquote spaces = true) as ->; [|reflexivity].
      clear -Hss. induction spaces as [|b s IH]; [reflexivity|].
      simpl in *. apply andb_true_iff in Hss as [Hb Hs].
      rewrite (IH Hs), andb_true_r.
      unfold Re.not_dquote, Re.space, Re.dquote in *.
      destruct (Ascii.eqb b _) eqn:E; [|reflexivity].
      apply Ascii.eqb_eq in E. subst b. discriminate Hb. }
  destruct Hline as [[_ Hline]|(B' & _ & Hline)].
  - apply first_dquote in Hline; [|assumption].
    destruct Hline as [[-> _]|(B' & -> & _)]; [reflexivity|].
    by rewrite all_in_dquote in Heq.
  - apply first_dquote in Hline; [|assumption].
    destruct Hline as [[_ ->]|(B'' & _ & ->)];
      by rewrite all_in_dquote in Hrq.
Qed.

(** ** Locking *)

Section Prescan.

Context {FS : Type} (O : os FS) (F : flags).

Lemma bind_Done {A B} (m : script FS A) (k : A -> script FS B) W W' a :
  m W = (W', Done a) -> (m ≫= k) W = k a W'.
Proof. intros H. unfold mbind, script_bind. by rewrite H. Qed.

Lemma bind_Raised {A B} (m : script FS A) (k : A -> script FS B) W W' e :
  m W = (W', Raised e) -> (m ≫= k) W = (W', Raised e).
Proof. intros H. unfold mbind, script_bind. by rewrite H. Qed.

(** X12 (--lock). With [--lock], no dry run, and a lock file that
    resolves to the path [p], when the file can be written and is a file
    afterwards, [process_prescan_commands] writes it, prints the two
    messages and returns [True]: the same run does not go on to scan. *)
Theorem lock_then_locked (W : world FS) (p : string) (fs' : FS) :
  lock F = true -> unlock F = false -> dry_run F = false ->
  lockfile F <> None ->
  lock_path O F (Some p) ->
  write_file O (files W) p ("locked" ++ newline) = (fs', None) ->
  isfile O fs' p = true ->
  process_prescan_commands O F W
  = ({| files := fs';
        trace := trace W ++ [Printed ("Locked via file: " ++ p);
                             Printed ("Reconnect is locked via " ++ p)] |},
     Done true).
Proof.
  intros Hl Hu Hd Hf Hp Hw Hi. unfold process_prescan_commands, lock_path in *.
  rewrite Hl, Hu, Hd, Hp. simpl.
  rewrite bool_decide_eq_false_2 by assumption. simpl.
  unfold mbind, script_bind, pure, do_lock, is_locked, print_with_timestamp,
    mret, script_ret, emit. simpl.
  rewrite Hw. simpl. rewrite Hi. simpl. by rewrite <- app_assoc.
Qed.

(** X13 (--unlock). With [--unlock], no dry run, and a lock file that
    resolves to the path [p], when the file can be removed and is gone
    afterwards, [process_prescan_commands] removes it, prints nothing and
    returns [False]: the same run goes on to scan. *)
Theorem unlock_then_unlocked (W : world FS) (p : string) (fs' : FS) :
  unlock F = true -> lock F = false -> dry_run F = false ->
  lockfile F <> None ->
  lock_path O F (Some p) ->
  remove O (files W) p = Some fs' ->
  isfile O fs' p = false ->
  process_prescan_commands O F W
  = ({| files := fs'; trace := trace W |}, Done false).
Proof.
  intros Hu Hl Hd Hf Hp Hr Hi. unfold process_prescan_commands, lock_path in *.
  rewrite Hl, Hu, Hd, Hp. simpl.
  rewrite bool_decide_eq_false_2 by assumption. simpl.
  unfold mbind, script_bind, pure, do_unlock, is_locked, mret, script_ret.
  simpl. rewrite Hr. simpl. by rewrite Hi.
Qed.

(** X14 (--unlock that fails). When [os.remove] fails, the error is
    swallowed: the files stay as they were, and [process_prescan_commands]
    reports the lock as it finds it, returning [True] with the message of
    the lock when the path is still a file, and [False] otherwise. *)
Theorem unlock_failure_is_silent (W : world FS) (p : string) :
  unlock F = true -> lock F = false -> dry_run F = false ->
  lockfile F <> None ->
  lock_path O F (Some p) ->
  remove O (files W) p = None ->
  process_prescan_commands O F W
  = if isfile O (files W) p
    then ({| files := files W;
             trace := trace W ++ [Printed ("Reconnect is locked via " ++ p)] |},
          Done true)
    else (W, Done false).
Proof.
  intros Hu Hl Hd Hf Hp Hr. unfold process_prescan_commands, lock_path in *.
  rewrite Hl, Hu, Hd, Hp. simpl.
  rewrite bool_decide_eq_false_2 by assumption. simpl.
  unfold mbind, script_bind, pure, do_unlock, is_locked, mret, script_ret,
    print_with_timestamp, emit.
  simpl. rewrite Hr. simpl. by destruct (isfile O (files W) p).
Qed.

(** X15 (relative lock file without HOME). With HOME unset and a lock
    file name that is relative, [--lock] or [--unlock] outside a dry run
    ends in [TypeError], the path being [None], and nothing is written,
    removed or printed. *)
Theorem lock_without_home (W : world FS) (f : string) :
  HOME O = None ->
  lockfile F = Some f -> f <> "" -> (forall rest, f <> String "/" rest) ->
  xorb (lock F) (unlock F) = true -> dry_run F = false ->
  process_prescan_commands O F W
  = (W, Raised (Exn (TypeError
       "coercing to Unicode: need string or buffer, NoneType found"))).
Proof.
  intros HH Hf Hne Hrel Hx Hd. unfold process_prescan_commands.
  rewrite HH, Hf, Hd.
  assert (get_path_full_or_relative_to_home None (Some f) = Done None) as ->.
  { destruct f as [|c f]; [done|]. simpl in *.
    destruct (Ascii.eqb c "/") eqn:E; [|reflexivity].
    apply Ascii.eqb_eq in E. subst c. by destruct (Hrel f). }
  destruct (lock F), (unlock F); try discriminate; reflexivity.
Qed.

(** X16 (empty lock file name). With the empty text as lock file name
    and not both [--lock] and [--unlock], [process_prescan_commands] ends
    in [IndexError] before anything is done, also when neither flag is
    set. *)
Theorem empty_lockfile_IndexError (W : world FS) :
  lockfile F = Some "" -> lock F && unlock F = false ->
  process_prescan_commands O F W
  = (W, Raised (IndexError "string index out of range")).
Proof.
  intros Hf Hlu. unfold process_prescan_commands. rewrite Hf, Hlu.
  rewrite bool_decide_eq_false_2 by discriminate.
  by rewrite andb_false_r.
Qed.

End Prescan.

(** ** What a run emits *)

Section Emits.

Context {FS : Type}.

Lemma emits_ret {A} (P : event -> Prop) (Q : A -> Prop) (a : A) :
  Q a -> emits (FS := FS) P Q (mret a).
Proof.
  intros Ha W. exists []. simpl. rewrite app_nil_r.
  split; [reflexivity|]. split; [constructor|]. intros a' [= <-]. exact Ha.
Qed.

Lemma emits_pure {A} (P : event -> Prop) (Q : A -> Prop) (r : outcome A) :
  (forall a, r = Done a -> Q a) -> emits (FS := FS) P Q (pure r).
Proof.
  intros Hr W. exists []. simpl. rewrite app_nil_r.
  split; [reflexivity|]. split; [constructor|]. exact Hr.
Qed.

Lemma emits_emit (P : event -> Prop) (e : event) :
  P e -> emits (FS := FS) P (fun _ => True) (emit e).
Proof.
  intros He W. exists [e]. simpl.
  split; [reflexivity|]. split; [by repeat constructor|]. done.
Qed.

Lemma emits_bind {A B} (P : event -> Prop) (Q : A -> Prop) (R : B -> Prop)
    (m : script FS A) (k : A -> script FS B) :
  emits P Q m -> (forall a, Q a -> emits P R (k a)) -> emits P R (m ≫= k).
Proof.
  intros Hm Hk W. destruct (Hm W) as (evs & Ht & HP & HQ).
  unfold mbind, script_bind. destruct (m W) as [W1 [a|e]]; simpl in *.
  - destruct (Hk a (HQ a eq_refl) W1) as (evs' & Ht' & HP' & HR).
    exists (evs ++ evs')%list. rewrite Ht', Ht, app_assoc.
    split; [reflexivity|]. split; [by apply Forall_app|]. exact HR.
  - exists evs. split; [assumption|]. split; [assumption|]. discriminate.
Qed.

Lemma emits_weaken {A} (P : event -> Prop) (Q Q' : A -> Prop)
    (m : script FS A) :
  emits P Q m -> (forall a, Q a -> Q' a) -> emits P Q' m.
Proof.
  intros Hm HQ W. destruct (Hm W) as (evs & Ht & HP & Ha).
  exists evs. split; [assumption|]. split; [assumption|].
  intros a H. by apply HQ, Ha.
Qed.

Lemma emits_state {A} (P : event -> Prop) (m : script FS A) :
  (forall W, trace (m W).1 = trace W) -> emits P (fun _ => True) m.
Proof.
  intros Hm W. exists []. rewrite app_nil_r.
  split; [apply Hm|]. split; [constructor|]. done.
Qed.

Context (O : os FS) (F : flags) (G : globals).

Variable P : event -> Prop.
Hypothesis P_Printed : forall text, P (Printed text).
Hypothesis P_Stderr : forall text, P (Stderr text).

Lemma print_emits text :
  emits (FS := FS) P (fun _ => True) (print_with_timestamp text).
Proof. apply emits_emit, P_Printed. Qed.

Lemma run_command_emits command :
  P (Popen command) -> emits P (fun _ => True) (run_command_or_die O command).
Proof.
  intros Hc. unfold run_command_or_die.
  apply (emits_bind P (fun _ => True)); [apply emits_emit, Hc|]. intros _ _.
  destruct (communicate O command) as [[outs errs]|].
  - apply (emits_bind P (fun _ => True)); [|intros; by apply emits_ret].
    destruct (String.eqb errs ""); [by apply emits_ret|].
    apply emits_emit, P_Stderr.
  - by apply emits_pure.
Qed.

Lemma do_lock_emits p : emits P (fun _ => True) (do_lock O p).
Proof.
  destruct p as [p|]; [|by apply emits_pure].
  intros W. unfold do_lock.
  destruct (write_file O (files W) p ("locked" ++ newline)) as [fs' [[n s]|]].
  - exists []. simpl. rewrite app_nil_r. by repeat split.
  - exists [Printed ("Locked via file: " ++ p)]. simpl.
    split; [reflexivity|]. split; [|done]. by repeat constructor.
Qed.

Lemma do_unlock_emits p : emits P (fun _ => True) (do_unlock O p).
Proof.
  destruct p as [p|]; [|by apply emits_pure].
  apply emits_state. intros W. unfold do_unlock.
  by destruct (remove O (files W) p).
Qed.

Lemma prescan_emits :
  emits P (fun _ => True) (process_prescan_commands O F).
Proof.
  unfold process_prescan_commands.
  destruct (lock F && unlock F); [by apply emits_pure|].
  destruct ((lock F || unlock F) && bool_decide (lockfile F = None));
    [by apply emits_pure|].
  apply (emits_bind P (fun _ => True)); [by apply emits_pure|].
  intros p _.
  apply (emits_bind P (fun _ => True)).
  { destruct (lock F); [|by apply emits_ret].
    destruct (negb (dry_run F)); [|apply print_emits].
    apply (emits_bind P (fun _ => True)); [apply do_lock_emits|]. intros; by apply emits_ret. }
  intros _ _.
  apply (emits_bind P (fun _ => True)).
  { destruct (unlock F); [|by apply emits_ret].
    destruct (negb (dry_run F)); [apply do_unlock_emits|apply print_emits]. }
  intros _ _.
  apply (emits_bind P (fun _ => True)).
  { apply (emits_state _ (is_locked O p)). intros W. by destruct p. }
  intros locked _. destruct locked; [|by apply emits_ret].
  apply (emits_bind P (fun _ => True)); [apply print_emits|].
  intros; by apply emits_ret.
Qed.

Hypothesis P_scan : forall w rest,
  preferred_wlans G = w :: rest ->
  P (Popen [IWLIST; interface F; SCANNING_COMMAND; "essid"; w]).
Hypothesis P_active : P (Popen [IWCONFIG; interface F]).
Hypothesis P_activate : forall w,
  dry_run F = false -> w ∈ preferred_wlans G ->
  P (Popen [NMCLI; "c"; "up"; "id"; w]).

Lemma main_emits : emits P (fun _ => True) (main O F G).
Proof.
  unfold main.
  apply (emits_bind P (fun _ => True)); [apply prescan_emits|].
  intros locked _.
  destruct locked; [by apply emits_ret|].
  apply (emits_bind P (fun _ => True)).
  { unfold scan_wifi.
    destruct (preferred_wlans G) as [|w rest] eqn:HP; [by apply emits_ret|].
    apply (emits_bind P (fun _ => True));
      [apply run_command_emits; by eapply P_scan|].
    intros [outs errs] _.
    apply (emits_bind P (fun _ => True)); [by apply emits_pure|].
    intros; by apply emits_ret. }
  intros scanned _.
  apply (emits_bind P (fun _ => True)).
  { unfold get_active_wlan.
    apply (emits_bind P (fun _ => True));
      [apply run_command_emits, P_active|].
    intros [outs errs] _. by apply emits_ret. }
  intros active _.
  apply (emits_bind P (fun better =>
      better = active \/ exists w, better = Some w /\ w ∈ preferred_wlans G)).
  { apply (emits_pure _ (fun better =>
      better = active \/ exists w, better = Some w /\ w ∈ preferred_wlans G)).
    intros better H.
    destruct (find_better_wifi G active scanned) as [d|] eqn:Hd;
      [|discriminate].
    inversion H; subst d.
    apply find_better_wifi_returns in Hd
      as [->|(sc & w & _ & -> & Hw & _)]; [by left|].
    right. by exists w. }
  intros better Hbetter.
  destruct (bool_decide (better = active)) eqn:E; simpl;
    [apply print_emits|].
  apply bool_decide_eq_false in E.
  destruct Hbetter as [->|(w & -> & Hw)]; [done|].
  destruct (dry_run F) eqn:Hd; simpl; [apply print_emits|].
  apply (emits_bind P (fun _ => True)); [apply print_emits|]. intros _ _.
  unfold activate_wifi.
  apply (emits_bind P (fun _ => True));
    [apply run_command_emits; by apply P_activate|].
  intros; by apply emits_ret.
Qed.

End Emits.

Section Files.

Context {FS : Type}.

Lemma keeps_files_bind {A B} (m : script FS A) (k : A -> script FS B) :
  keeps_files m -> (forall a, keeps_files (k a)) -> keeps_files (m ≫= k).
Proof.
  intros Hm Hk W. specialize (Hm W). unfold mbind, script_bind.
  destruct (m W) as [W1 [a|e]]; simpl in *; [|assumption].
  by rewrite Hk.
Qed.

Lemma keeps_files_ret {A} (a : A) : keeps_files (FS := FS) (mret a).
Proof. by intros W. Qed.

Lemma keeps_files_pure {A} (r : outcome A) : keeps_files (FS := FS) (pure r).
Proof. by intros W. Qed.

Lemma keeps_files_emit e : keeps_files (FS := FS) (emit e).
Proof. by intros W. Qed.

Context (O : os FS) (F : flags) (G : globals).

Lemma run_command_keeps_files command :
  keeps_files (run_command_or_die O command).
Proof.
  unfold run_command_or_die.
  apply keeps_files_bind; [apply keeps_files_emit|]. intros _.
  destruct (communicate O command) as [[outs errs]|];
    [|apply keeps_files_pure].
  apply keeps_files_bind; [|intros; apply keeps_files_ret].
  destruct (String.eqb errs ""); [apply keeps_files_ret|apply keeps_files_emit].
Qed.

Lemma prescan_dry_run_keeps_files :
  dry_run F = true -> keeps_files (process_prescan_commands O F).
Proof.
  intros Hd W. unfold process_prescan_commands. rewrite Hd.
  destruct (lock F && unlock F); [reflexivity|].
  destruct ((lock F || unlock F) && bool_decide (lockfile F = None));
    [reflexivity|].
  destruct (get_path_full_or_relative_to_home (HOME O) (lockfile F))
    as [p|e]; [|reflexivity].
  unfold mbind, script_bind, pure, is_locked, mret, script_ret,
    print_with_timestamp, emit. simpl.
  destruct (lock F), (unlock F), p as [p|]; simpl;
    try destruct (isfile O (files W) p); reflexivity.
Qed.

Lemma main_dry_run_keeps_files :
  dry_run F = true -> keeps_files (main O F G).
Proof.
  intros Hd. unfold main.
  apply keeps_files_bind; [by apply prescan_dry_run_keeps_files|].
  intros locked. destruct locked; [apply keeps_files_ret|].
  apply keeps_files_bind.
  { unfold scan_wifi. destruct (preferred_wlans G); [apply keeps_files_ret|].
    apply keeps_files_bind; [apply run_command_keeps_files|].
    intros [outs errs].
    apply keeps_files_bind; [apply keeps_files_pure|].
    intros; apply keeps_files_ret. }
  intros scanned. apply keeps_files_bind.
  { unfold get_active_wlan.
    apply keeps_files_bind; [apply run_command_keeps_files|].
    intros [outs errs]. apply keeps_files_ret. }
  intros active. apply keeps_files_bind; [apply keeps_files_pure|].
  intros better. rewrite Hd. simpl.
  destruct (negb _); apply keeps_files_emit.
Qed.

(** What [emits] says of one command of the trace. *)
Lemma emits_Popen {A} (P : event -> Prop) (Q : A -> Prop) (m : script FS A)
    W command :
  emits P Q m ->
  Popen command ∈ trace (m W).1 ->
  Popen command ∈ trace W \/ P (Popen command).
Proof.
  intros Hm Hin. destruct (Hm W) as (evs & Ht & HP & _).
  rewrite Ht in Hin. apply elem_of_app in Hin as [Hin|Hin]; [by left|].
  right. rewrite Forall_forall in HP. by apply HP.
Qed.

(** ** The runs of main *)

(** X17 (the commands of a run). Every command that [main] starts is
    the scan for the first preferred network, the query of the interface,
    or the activation of an identifier of the preferred list: a run never
    activates a network outside the preferred list. *)
Theorem main_commands (W : world FS) (command : list string) :
  Popen command ∈ trace (main O F G W).1 ->
  Popen command ∈ trace W \/ allowed_command F G command.
Proof.
  intros Hin.
  pose (P := fun e => forall c, e = Popen c -> allowed_command F G c).
  assert (emits P (fun _ => True) (main O F G)) as Hm.
  { apply main_emits; unfold P.
    - discriminate.
    - discriminate.
    - intros w rest HP c [= <-]. left. by exists w, rest.
    - intros c [= <-]. right. by left.
    - intros w _ Hw c [= <-]. right. right. by exists w. }
  destruct (emits_Popen P _ _ W command Hm Hin) as [?|H]; [by left|].
  right. by apply H.
Qed.

(** X18 (dry run). Under [--dry_run], [main] leaves the files as they
    are and starts no [nmcli] command. *)
Theorem dry_run_is_harmless (W : world FS) (command : list string) :
  dry_run F = true ->
  files (main O F G W).1 = files W /\
  (Popen command ∈ trace (main O F G W).1 ->
   Popen command ∈ trace W \/ hd "" command <> NMCLI).
Proof.
  intros Hd. split; [by apply main_dry_run_keeps_files|].
  intros Hin.
  pose (P := fun e => forall c, e = Popen c -> hd "" c <> NMCLI).
  assert (emits P (fun _ => True) (main O F G)) as Hm.
  { apply main_emits; unfold P.
    - discriminate.
    - discriminate.
    - intros w rest HP c [= <-]. discriminate.
    - intros c [= <-]. discriminate.
    - intros w Hd'. congruence. }
  destruct (emits_Popen P _ _ W command Hm Hin) as [?|H]; [by left|].
  right. by apply H.
Qed.

(** X19 (no preferred network). With an empty preferred list the only
    command that [main] starts is the query of the interface: no scan is
    made and no network is activated, whatever the non-preferred list
    holds. *)
Theorem no_preferred_no_switch (W : world FS) (command : list string) :
  preferred_wlans G = [] ->
  Popen command ∈ trace (main O F G W).1 ->
  Popen command ∈ trace W \/ command = [IWCONFIG; interface F].
Proof.
  intros HG Hin.
  pose (P := fun e => forall c, e = Popen c -> c = [IWCONFIG; interface F]).
  assert (emits P (fun _ => True) (main O F G)) as Hm.
  { apply main_emits; unfold P.
    - discriminate.
    - discriminate.
    - intros w rest HP. congruence.
    - by intros c [= <-].
    - intros w _ Hw. rewrite HG in Hw. by apply not_elem_of_nil in Hw. }
  destruct (emits_Popen P _ _ W command Hm Hin) as [?|H]; [by left|].
  right. by apply H.
Qed.

(** X20 (locked run). Without [--lock] and [--unlock], when the lock
    file resolves to a path that is a file, [main] prints that the
    reconnector is locked and ends: no command is started and no file
    changes. *)
Theorem locked_run_does_nothing (W : world FS) (p : string) :
  lock F = false -> unlock F = false ->
  lock_path O F (Some p) ->
  isfile O (files W) p = true ->
  main O F G W
  = ({| files := files W;
        trace := trace W ++ [Printed ("Reconnect is locked via " ++ p)] |},
     Done tt).
Proof.
  intros Hl Hu Hp Hi. unfold main, process_prescan_commands, lock_path in *.
  rewrite Hl, Hu, Hp. simpl.
  unfold mbind, script_bind, pure, is_locked, mret, script_ret,
    print_with_timestamp, emit. simpl. by rewrite Hi.
Qed.

End Files.

(** ** get_path_full_or_relative_to_home *)

(** X4 (lock file path). When HOME, if set, is an absolute path, every
    path that [get_path_full_or_relative_to_home] returns starts with a
    slash, and the function returns it unchanged when applied to it
    again. *)
Theorem lock_path_absolute (home filename : option string) (p : string) :
  (forall h, home = Some h -> exists rest, h = String "/" rest) ->
  get_path_full_or_relative_to_home home filename = Done (Some p) ->
  (exists rest, p = String "/" rest) /\
  get_path_full_or_relative_to_home home (Some p) = Done (Some p).
Proof.
  intros Hh H.
  assert (exists rest, p = String "/" rest) as [rest ->].
  { destruct filename as [[|c f]|]; simpl in H; try discriminate.
    destruct (Ascii.eqb c "/") eqn:E.
    - apply Ascii.eqb_eq in E. inversion H. subst. by eexists.
    - destruct home as [h|]; [|discriminate].
      destruct (Hh h eq_refl) as [rest ->]. inversion H. by eexists. }
  split; [by eexists|reflexivity].
Qed.

(** X11 (no association). On an output without any double quote, as
    [iwconfig] prints it for an interface that is not associated,
    [match_iwconfig_v30_essid] returns [None]. *)
Theorem not_associated_no_active (output : list string) :
  Forall (fun line => all_in Re.not_dquote line = true) output ->
  match_iwconfig_v30_essid output = None.
Proof.
  induction 1 as [|line output Hline _ IH]; [reflexivity|].
  simpl. by rewrite (no_dquote_no_match _ Hline).
Qed.

Lemma decision_active_or_preferred_witness :
  Some "secA" = Some "open1" \/
  exists scanned w, Some scenario_5_scan = Some scanned /\ Some "secA" = Some w /\
    w ∈ preferred_wlans scenario_5_globals /\
    in_range scenario_5_globals scanned w /\
    elem (Some "open1") (preferred_wlans scenario_5_globals) = false.
Proof.
  apply (decision_active_or_preferred scenario_5_globals (Some "open1")
           (Some scenario_5_scan) (Some "secA")).
  vm_compute. reflexivity.
Defined.

Lemma lock_path_absolute_witness :
  (exists rest, "/home/admin/reconnect.lock" = String "/" rest) /\
  get_path_full_or_relative_to_home (Some "/home/admin")
    (Some "/home/admin/reconnect.lock")
  = Done (Some "/home/admin/reconnect.lock").
Proof.
  apply (lock_path_absolute (Some "/home/admin") (Some "reconnect.lock")).
  - intros h [= <-]. eexists. reflexivity.
  - reflexivity.
Defined.

Lemma scan_keys_are_essids_witness : essid example_home = "home".
Proof.
  apply (scan_keys_are_essids (split_lines example_iwlist_output)
           example_scan "home" example_home).
  - vm_compute. reflexivity.
  - vm_compute. reflexivity.
Defined.

Lemma scan_entries_and_cells_witness :
  size example_scan <= count_cells (split_lines example_iwlist_output) /\
  (example_scan = ∅ <-> count_cells (split_lines example_iwlist_output) = 0).
Proof.
  apply (scan_entries_and_cells (split_lines example_iwlist_output)).
  vm_compute. reflexivity.
Defined.

Lemma scan_entries_well_formed_witness : well_formed example_home.
Proof.
  apply (scan_entries_well_formed (split_lines example_iwlist_output)
           example_scan "home").
  - vm_compute. reflexivity.
  - vm_compute. reflexivity.
Defined.

Lemma scan_cells_compose_witness :
  match_iwlist_v30_output (example_cell_1 ++ example_cell_2)
  = Done (scan_result (match_iwlist_v30_output example_cell_2)
          ∪ scan_result (match_iwlist_v30_output example_cell_1)).
Proof.
  apply (scan_cells_compose example_cell_1
           "          Cell 02 - Address: 66:77:88:99:AA:BB"
           (tail example_cell_2)).
  - vm_compute. reflexivity.
  - vm_compute. reflexivity.
  - vm_compute. reflexivity.
Defined.

Lemma active_essid_reported_witness :
  "guest" <> "" /\ all_in Re.not_dquote "guest" = true /\
  exists line before rest,
    line ∈ split_lines example_iwconfig_output /\
    line = before ++ quoted "ESSID:" ++ quoted "guest" ++ rest.
Proof.
  apply (active_essid_reported (split_lines example_iwconfig_output) "guest").
  vm_compute. reflexivity.
Defined.

Lemma active_essid_found_witness :
  match_iwconfig_v30_essid
    (["lo        no wireless extensions."; ""]
     ++ ("wlan0" ++ "  " ++ quoted "ESSID:" ++ quoted "guest" ++ "  ")
     :: ["          Mode:Managed"])
  = Some "guest".
Proof.
  apply (active_essid_found ["lo        no wireless extensions."; ""]
           ["          Mode:Managed"] "wlan0" "  " "guest" "  ").
  - repeat constructor.
  - discriminate.
  - reflexivity.
  - reflexivity.
  - discriminate.
  - reflexivity.
  - discriminate.
  - reflexivity.
  - reflexivity.
Defined.

Lemma not_associated_no_active_witness :
  match_iwconfig_v30_essid
    ["wlan0     IEEE 802.11abgn  ESSID:off/any  ";
     "          Mode:Managed  Access Point: Not-Associated"]
  = None.
Proof.
  apply (not_associated_no_active
           ["wlan0     IEEE 802.11abgn  ESSID:off/any  ";
            "          Mode:Managed  Access Point: Not-Associated"]).
  repeat constructor.
Defined.

Lemma lock_then_locked_witness :
  process_prescan_commands (example_os (Some "/home/admin"))
    (example_flags false true false (Some "reconnect.lock")) (example_world [])
  = ({| files := {[lock_file]} ∪ ∅;
        trace := [] ++ [Printed ("Locked via file: " ++ lock_file);
                        Printed ("Reconnect is locked via " ++ lock_file)] |},
     Done true).
Proof.
  apply (lock_then_locked (example_os (Some "/home/admin"))
           (example_flags false true false (Some "reconnect.lock"))
           (example_world []) lock_file ({[lock_file]} ∪ ∅)).
  - reflexivity.
  - reflexivity.
  - reflexivity.
  - discriminate.
  - reflexivity.
  - reflexivity.
  - vm_compute. reflexivity.
Defined.

Lemma unlock_then_unlocked_witness :
  process_prescan_commands (example_os (Some "/home/admin"))
    (example_flags false false true (Some "reconnect.lock"))
    (example_world [lock_file])
  = ({| files := list_to_set [lock_file] ∖ {[lock_file]}; trace := [] |},
     Done false).
Proof.
  apply (unlock_then_unlocked (example_os (Some "/home/admin"))
           (example_flags false false true (Some "reconnect.lock"))
           (example_world [lock_file]) lock_file
           (list_to_set [lock_file] ∖ {[lock_file]})).
  - reflexivity.
  - reflexivity.
  - reflexivity.
  - discriminate.
  - reflexivity.
  - vm_compute. reflexivity.
  - vm_compute. reflexivity.
Defined.

Lemma unlock_failure_is_silent_witness :
  process_prescan_commands (example_os (Some "/home/admin"))
    (example_flags false false true (Some "reconnect.lock")) (example_world [])
  = if isfile (example_os (Some "/home/admin")) (files (example_world []))
         lock_file
    then ({| files := files (example_world []);
             trace := trace (example_world [])
                      ++ [Printed ("Reconnect is locked via " ++ lock_file)] |},
          Done true)
    else (example_world [], Done false).
Proof.
  apply (unlock_failure_is_silent (example_os (Some "/home/admin"))
           (example_flags false false true (Some "reconnect.lock"))
           (example_world []) lock_file).
  - reflexivity.
  - reflexivity.
  - reflexivity.
  - discriminate.
  - reflexivity.
  - vm_compute. reflexivity.
Defined.

Lemma lock_without_home_witness :
  process_prescan_commands (example_os None)
    (example_flags false true false (Some "reconnect.lock")) (example_world [])
  = (example_world [],
     Raised (Exn (TypeError
       "coercing to Unicode: need string or buffer, NoneType found"))).
Proof.
  apply (lock_without_home (example_os None)
           (example_flags false true false (Some "reconnect.lock"))
           (example_world []) "reconnect.lock").
  - reflexivity.
  - reflexivity.
  - discriminate.
  - discriminate.
  - reflexivity.
  - reflexivity.
Defined.

Lemma empty_lockfile_IndexError_witness :
  process_prescan_commands (example_os (Some "/home/admin"))
    (example_flags false false false (Some "")) (example_world [])
  = (example_world [], Raised (IndexError "string index out of range")).
Proof.
  apply (empty_lockfile_IndexError (example_os (Some "/home/admin"))
           (example_flags false false false (Some "")) (example_world [])).
  - reflexivity.
  - reflexivity.
Defined.

Lemma main_commands_witness :
  Popen [NMCLI; "c"; "up"; "id"; "home"] ∈ trace (example_world []) \/
  allowed_command (example_flags false false false (Some "reconnect.lock"))
    example_globals [NMCLI; "c"; "up"; "id"; "home"].
Proof.
  apply (main_commands (example_os (Some "/home/admin"))
           (example_flags false false false (Some "reconnect.lock"))
           example_globals (example_world [])).
  apply (list_elem_of_lookup_2 _ 3). vm_compute. reflexivity.
Defined.

Lemma dry_run_is_harmless_witness :
  files (example_run true).1 = files (example_world []) /\
  (Popen [IWCONFIG; "wlan0"] ∈ trace (example_run true).1 ->
   Popen [IWCONFIG; "wlan0"] ∈ trace (example_world []) \/
   hd "" [IWCONFIG; "wlan0"] <> NMCLI).
Proof.
  apply (dry_run_is_harmless (example_os (Some "/home/admin"))
           (example_flags true false false (Some "reconnect.lock"))
           example_globals (example_world []) [IWCONFIG; "wlan0"]).
  reflexivity.
Defined.

Lemma no_preferred_no_switch_witness :
  Popen [IWCONFIG; "wlan0"] ∈ trace (example_world []) \/
  [IWCONFIG; "wlan0"]
  = [IWCONFIG;
     interface (example_flags false false false (Some "reconnect.lock"))].
Proof.
  apply (no_preferred_no_switch (example_os (Some "/home/admin"))
           (example_flags false false false (Some "reconnect.lock"))
           (with_lists [] ["guest"]) (example_world [])).
  - reflexivity.
  - apply (list_elem_of_lookup_2 _ 0). vm_compute. reflexivity.
Defined.

Lemma locked_run_does_nothing_witness :
  main (example_os (Some "/home/admin"))
    (example_flags false false false (Some "reconnect.lock")) example_globals
    (example_world [lock_file])
  = ({| files := files (example_world [lock_file]);
        trace := trace (example_world [lock_file])
                 ++ [Printed ("Reconnect is locked via " ++ lock_file)] |},
     Done tt).
Proof.
  apply (locked_run_does_nothing (example_os (Some "/home/admin"))
           (example_flags false false false (Some "reconnect.lock"))
           example_globals (example_world [lock_file]) lock_file).
  - reflexivity.
  - reflexivity.
  - reflexivity.
  - vm_compute. reflexivity.
Defined.
